(** * Process monitor of the game-mode management extension

    A shallow embedding of
    [src/extensions/gamemode_management/util/ProcessMonitor.ts]:
    the procfs process enumerator, the per-tick decision procedure
    ([doCheck], with its local closures [isChildProcess] and [update]) and
    the polling scheduler ([start], [end], [check]).

    Conventions.
    - A JavaScript [number] that holds a process id is [Num z] or [NaN]
      ([Number.parseInt] yields [NaN] on a malformed status line).  Doubles
      beyond 2^53 are not modelled.
    - A plain object used as a dictionary is a [gmap]; a [Set] is a [gset].
      Property names inherited from [Object.prototype] are not modelled.
    - A thrown exception is the [Throw] constructor of [result].
    - Functions imported from modules that are not part of the sources
      ([makeExeId], [path.join], [winapi.GetModuleList]) and [process.pid]
      are Section variables. *)

From Stdlib Require Import ZArith List Bool Ascii String Lia.
From stdpp Require Import base option list gmap strings fin_maps fin_sets.

Local Open Scope Z_scope.

(* ===================================================================== *)
(** ** JavaScript values and built-ins used by the monitor *)
(* ===================================================================== *)

Module JS.

(** A JavaScript number used as a process id. *)
Inductive number : Type :=
| Num (z : Z)
| NaN.

#[global] Instance number_eq_dec : EqDecision number.
Proof. solve_decision. Defined.

Definition number_to_option (n : number) : option Z :=
  match n with Num z => Some z | NaN => None end.

Definition number_of_option (o : option Z) : number :=
  match o with Some z => Num z | None => NaN end.

#[global] Instance number_countable : Countable number.
Proof.
  apply (inj_countable' number_to_option number_of_option).
  intros []; reflexivity.
Defined.

(** [a === b] on numbers: [NaN] is not equal to anything, itself
    included.  ([Set.prototype.has] and property lookup, in contrast,
    do find [NaN]; they are the [gset] and [gmap] membership.) *)
Definition strict_eq (a b : number) : bool :=
  match a, b with
  | Num x, Num y => x =? y
  | _, _ => false
  end.

(** Exceptions the monitor can meet: a system error carrying [err.code],
    or the [TypeError] of a property access on [null]. *)
Inductive Error : Type :=
| SystemError (code : string)
| TypeError.

Inductive result (A : Type) : Type :=
| Ok (a : A)
| Throw (e : Error).
Arguments Ok {A} a.
Arguments Throw {A} e.

Definition bind {A B} (r : result A) (k : A -> result B) : result B :=
  match r with
  | Ok a => k a
  | Throw e => Throw e
  end.

(** [Array.prototype.map] with a callback that may throw: elements are
    visited in order and the first exception aborts the whole call. *)
Fixpoint mapM {A B} (f : A -> result B) (l : list A) : result (list B) :=
  match l with
  | [] => Ok []
  | x :: l' =>
      bind (f x) (fun y => bind (mapM f l') (fun ys => Ok (y :: ys)))
  end.

(** [a || b] on possibly-undefined strings: the empty string is falsy. *)
Definition or_else (a b : option string) : option string :=
  match a with
  | Some EmptyString => b
  | Some _ => a
  | None => b
  end.

(** *** Strings (code units in the ASCII range) *)

Definition lower_ascii (c : ascii) : ascii :=
  let n := nat_of_ascii c in
  if ((65 <=? n) && (n <=? 90))%nat then ascii_of_nat (n + 32) else c.

Fixpoint toLowerCase (s : string) : string :=
  match s with
  | EmptyString => EmptyString
  | String c s' => String (lower_ascii c) (toLowerCase s')
  end.

Definition strlen (s : string) : Z := Z.of_nat (String.length s).

Fixpoint drop_str (n : nat) (s : string) : string :=
  match n, s with
  | O, _ => s
  | S n', String _ s' => drop_str n' s'
  | S _, EmptyString => EmptyString
  end.

Fixpoint take_str (n : nat) (s : string) : string :=
  match n, s with
  | S n', String c s' => String c (take_str n' s')
  | _, _ => EmptyString
  end.

(** Position of the first [c] in [s], counted from [i]; [-1] if none. *)
Fixpoint index_from (c : ascii) (s : string) (i : Z) : Z :=
  match s with
  | EmptyString => -1
  | String d s' => if Ascii.eqb c d then i else index_from c s' (i + 1)
  end.

(** Position of the last [c] in [s], counted from [i]; [-1] if none. *)
Fixpoint last_index_from (c : ascii) (s : string) (i : Z) : Z :=
  match s with
  | EmptyString => -1
  | String d s' =>
      let r := last_index_from c s' (i + 1) in
      if r =? -1 then (if Ascii.eqb c d then i else -1) else r
  end.

Definition clamp (len k : Z) : Z := Z.min (Z.max k 0) len.

(** [s.indexOf(c, from)] for a one-character search string. *)
Definition indexOf (s : string) (c : ascii) (from : Z) : Z :=
  let k := clamp (strlen s) from in
  index_from c (drop_str (Z.to_nat k) s) k.

(** [s.lastIndexOf(c)] for a one-character search string. *)
Definition lastIndexOf (s : string) (c : ascii) : Z :=
  last_index_from c s 0.

(** [s.slice(a, b)]: negative indices count from the end. *)
Definition slice (s : string) (a b : Z) : string :=
  let len := strlen s in
  let from := if a <? 0 then Z.max (len + a) 0 else Z.min a len in
  let to := if b <? 0 then Z.max (len + b) 0 else Z.min b len in
  take_str (Z.to_nat (to - from)) (drop_str (Z.to_nat from) s).

Definition is_space (c : ascii) : bool :=
  let n := nat_of_ascii c in
  ((n =? 32) || ((9 <=? n) && (n <=? 13)))%nat.

Fixpoint skip_spaces (s : string) : string :=
  match s with
  | String c s' => if is_space c then skip_spaces s' else s
  | EmptyString => s
  end.

Definition digit_value (radix : Z) (c : ascii) : option Z :=
  let n := Z.of_nat (nat_of_ascii c) in
  let v :=
    if (48 <=? n) && (n <=? 57) then Some (n - 48)
    else if (97 <=? n) && (n <=? 122) then Some (n - 87)
    else if (65 <=? n) && (n <=? 90) then Some (n - 55)
    else None in
  match v with
  | Some d => if d <? radix then Some d else None
  | None => None
  end.

(** Longest prefix of digits, as (value so far, any digit seen). *)
Fixpoint parse_digits (radix : Z) (s : string) (acc : Z) (seen : bool)
  : Z * bool :=
  match s with
  | EmptyString => (acc, seen)
  | String c s' =>
      match digit_value radix c with
      | Some d => parse_digits radix s' (acc * radix + d) true
      | None => (acc, seen)
      end
  end.

Definition is_x (c : ascii) : bool :=
  let n := nat_of_ascii c in ((n =? 120) || (n =? 88))%nat.

(** [Number.parseInt(s)] without a radix argument. *)
Definition parseInt (s : string) : number :=
  let s0 := skip_spaces s in
  let '(sign, s1) :=
    match s0 with
    | String c r =>
        if Ascii.eqb c "-" then (-1, r)
        else if Ascii.eqb c "+" then (1, r)
        else (1, s0)
    | EmptyString => (1, s0)
    end in
  let '(radix, s2) :=
    match s1 with
    | String c0 (String c1 r) =>
        if Ascii.eqb c0 "0" && is_x c1 then (16, r) else (10, s1)
    | _ => (10, s1)
    end in
  match parse_digits radix s2 0 false with
  | (v, true) => Num (sign * v)
  | (_, false) => NaN
  end.

End JS.
Export JS.

(* ===================================================================== *)
(** ** Platform abstraction *)
(* ===================================================================== *)

(** [interface IProcessInfo] *)
Record IProcessInfo : Type := mkProcessInfo {
  processID : number;
  parentProcessID : number;
  exeFile : string;
}.

#[global] Instance IProcessInfo_eq_dec : EqDecision IProcessInfo.
Proof. solve_decision. Defined.

(** The two calls of node's [fs] the enumerator makes. *)
Record FileSystem : Type := mkFileSystem {
  readdirSync : string -> result (list string);
  readFileSync : string -> result string;
}.

Module ProcessMonitorImplProcfs.
Section Procfs.

(** node's [path.join] *)
Variable path_join : list string -> string.
Variable fs : FileSystem.

Definition proc_path : string := "/proc".

Definition isOnlyDigits (s : string) : bool :=
  forallb
    (fun c => let n := nat_of_ascii c in negb ((n <? 48) || (57 <? n))%nat)
    (list_ascii_of_string s).

(** [getProcessInfo(pid)] for a directory name [pid] (the only kind of
    argument [getProcessList] passes).  [Ok None] is the [null] returned
    when the status file is gone. *)
Definition getProcessInfo (pid : string) : result (option IProcessInfo) :=
  let pidStr := pid in
  match readFileSync fs (path_join [proc_path; pidStr; "stat"%string]) with
  | Throw (SystemError code) =>
      if String.eqb code "ENOENT" then Ok None
      else Throw (SystemError code)
  | Throw err => Throw err
  | Ok stat =>
      let exeFile_start := indexOf stat "(" 0 + 1 in
      let exeFile_end := lastIndexOf stat ")" in
      let ppid_start := exeFile_end + 4 in
      Ok (Some {|
        processID := parseInt pidStr;
        parentProcessID :=
          parseInt (slice stat ppid_start (indexOf stat " " ppid_start));
        exeFile := slice stat exeFile_start exeFile_end;
      |})
  end.

(** [getProcessList()]: the result keeps one slot per numeric directory
    entry, [None] where [getProcessInfo] returned [null]. *)
Definition getProcessList : result (list (option IProcessInfo)) :=
  bind (readdirSync fs proc_path) (fun proc_entries =>
    mapM getProcessInfo (List.filter isOnlyDigits proc_entries)).

End Procfs.
End ProcessMonitorImplProcfs.

(* ===================================================================== *)
(** ** The state the check reads, and the actions it dispatches *)
(* ===================================================================== *)

(** An entry of [state.session.base.toolsRunning]. *)
Record IRunningTool : Type := mkRunningTool {
  pid : number;
  exclusive : bool;
}.

(** The fields of a discovered tool the check reads. *)
Record IDiscoveredTool : Type := mkDiscoveredTool {
  tool_path : option string;
  tool_exclusive : option bool;
}.

(** The stored game, as returned by the [currentGame] selector. *)
Record IGameStored : Type := mkGameStored {
  game_id : string;
  game_executable : option string;
}.

(** The discovery result, as returned by [currentGameDiscovery]. *)
Record IDiscoveryResult : Type := mkDiscoveryResult {
  discovery_path : option string;
  discovery_executable : option string;
}.

(** The part of the store's state [doCheck] reads.  [currentGame] and
    [currentGameDiscovery] hold what the selectors of the same name
    return; [discovered] maps a game id to the tools object of
    [settings.gameMode.discovered[id]], in key order. *)
Record IState : Type := mkState {
  currentGame : option IGameStored;
  currentGameDiscovery : option IDiscoveryResult;
  toolsRunning : gmap string IRunningTool;
  discovered : gmap string (list (string * IDiscoveredTool));
}.

(** The two actions dispatched to the store: [setToolPid] is the
    "started" notification, [setToolStopped] the "stopped" one. *)
Inductive Action : Type :=
| setToolPid (exePath : string) (pid : number) (exclusive : bool)
| setToolStopped (exePath : string).

#[global] Instance Action_eq_dec : EqDecision Action.
Proof. solve_decision. Defined.

Definition action_path (a : Action) : string :=
  match a with
  | setToolPid p _ _ => p
  | setToolStopped p => p
  end.

Definition is_started (a : Action) : bool :=
  match a with setToolPid _ _ _ => true | setToolStopped _ => false end.

(** An entry of the list [winapi.GetModuleList] returns. *)
Module ModuleEntry.
Record t : Type := mk { exePath : string }.
End ModuleEntry.

(* ===================================================================== *)
(** ** The check: process indices, ancestry walk, per-target decision *)
(* ===================================================================== *)

Module Tracker.
Section Tracker.

(** [makeExeId] of [reducers/session] (not among the sources). *)
Variable makeExeId : string -> string.
(** node's [path.join] *)
Variable path_join : list string -> string.
(** [winapi.GetModuleList] *)
Variable GetModuleList : number -> list ModuleEntry.t.
(** [process.pid] *)
Variable vortexPid : number.

(** [processes.reduce((prev, proc) => { prev[proc.processID] = proc; ... }, {})]:
    reading [processID] of a [null] entry throws. *)
Definition reduce_byPid (processes : list (option IProcessInfo))
  : result (gmap number IProcessInfo) :=
  foldl
    (fun acc proc =>
       bind acc (fun prev =>
         match proc with
         | None => Throw TypeError
         | Some p => Ok (<[processID p := p]> prev)
         end))
    (Ok ∅) processes.

(** Modelled from the spec: [setdefault] of [util/util] is not among the
    sources.  The spec describes [byExeName] as "lowercased exe name to
    ordered list of records", so [setdefault(obj, key, def)] installs
    [def] under [key] unless the key is present and returns the value
    stored there; the caller then pushes onto that array. *)
Definition setdefault_push (prev : gmap string (list IProcessInfo))
    (key : string) (entry : IProcessInfo) : gmap string (list IProcessInfo) :=
  <[key := default [] (prev !! key) ++ [entry]]> prev.

Definition reduce_byName (processes : list (option IProcessInfo))
  : result (gmap string (list IProcessInfo)) :=
  foldl
    (fun acc entry =>
       bind acc (fun prev =>
         match entry with
         | None => Throw TypeError
         | Some e => Ok (setdefault_push prev (toLowerCase (exeFile e)) e)
         end))
    (Ok ∅) processes.

Section Snapshot.

Variable byPid : gmap number IProcessInfo.
Variable byName : gmap string (list IProcessInfo).
Variable state : IState.

(** The closure [isChildProcess], with the recursion depth bounded by
    [fuel]; [None] means the bound was hit. *)
Fixpoint isChildProcess_fuel (fuel : nat) (proc : option IProcessInfo)
    (visited : gset number) : option bool :=
  match fuel with
  | O => None
  | S fuel' =>
      match proc with
      | None => Some false
      | Some p =>
          if strict_eq (parentProcessID p) (Num 0) then Some false
          else if bool_decide (parentProcessID p ∈ visited) then Some false
          else
            let visited' := {[parentProcessID p]} ∪ visited in
            if strict_eq (parentProcessID p) vortexPid then Some true
            else isChildProcess_fuel fuel' (byPid !! parentProcessID p) visited'
      end
  end.

(** Enough fuel for any walk over [byPid] (see [isChildProcess_fuel_enough]). *)
Definition walk_bound : nat := S (S (size byPid)).

Definition isChildProcess (proc : option IProcessInfo) (visited : gset number)
  : bool :=
  default false (isChildProcess_fuel walk_bound proc visited).

(** One call of [isChildProcess] as the source writes it, with [rec]
    for the recursive call. *)
Definition isChildProcess_step
    (rec : option IProcessInfo -> gset number -> bool)
    (proc : option IProcessInfo) (visited : gset number) : bool :=
  match proc with
  | None => false
  | Some p =>
      if strict_eq (parentProcessID p) (Num 0) then false
      else if bool_decide (parentProcessID p ∈ visited) then false
      else strict_eq (parentProcessID p) vortexPid
           || rec (byPid !! parentProcessID p)
                  ({[parentProcessID p]} ∪ visited)
  end.

(** Pids of the table not yet visited: the measure of the walk. *)
Definition unvisited (visited : gset number) : nat :=
  size (dom byPid ∖ visited).

(** The predicate of [candidates.find]. *)
Definition confirmed (exePath : string) (exe : IProcessInfo) : bool :=
  let modules := GetModuleList (processID exe) in
  match modules with
  | [] => false
  | m :: _ => String.eqb (toLowerCase (ModuleEntry.exePath m)) (toLowerCase exePath)
  end.

Definition candidates_of (considerDetached : bool)
    (exeRunning : list IProcessInfo) : list IProcessInfo :=
  if considerDetached then exeRunning
  else List.filter (fun proc => isChildProcess (Some proc) ∅) exeRunning.

(** The closure [update]; the result is the sequence of actions it
    dispatches. *)
Definition update (exePath : string) (exclusive considerDetached : bool)
  : list Action :=
  let exeId := makeExeId exePath in
  let knownRunning := toolsRunning state !! exeId in
  let exeRunning := byName !! exeId in
  match exeRunning with
  | None =>
      if bool_decide (is_Some knownRunning) then [setToolStopped exePath]
      else []
  | Some exeRunning =>
      if bool_decide (is_Some knownRunning)
         && bool_decide (is_Some (knownRunning ≫= fun k => byPid !! pid k))
      then []
      else
        let candidates := candidates_of considerDetached exeRunning in
        let match_ := List.find (confirmed exePath) candidates in
        match match_ with
        | Some m => [setToolPid exePath (processID m) exclusive]
        | None =>
            if bool_decide (is_Some knownRunning) then [setToolStopped exePath]
            else []
        end
  end.

End Snapshot.

Definition gameExe (state : IState) : option string :=
  or_else (currentGameDiscovery state ≫= discovery_executable)
          (currentGame state ≫= game_executable).

Definition gamePath (state : IState) : option string :=
  currentGameDiscovery state ≫= discovery_path.

(** [Object.keys(discoveredTools).forEach(...)] *)
Definition update_tools (byPid : gmap number IProcessInfo)
    (byName : gmap string (list IProcessInfo)) (state : IState)
    (discoveredTools : list (string * IDiscoveredTool)) : list Action :=
  flat_map
    (fun entry : string * IDiscoveredTool =>
       match tool_path (snd entry) with
       | None => []
       | Some p =>
           update byPid byName state p
             (default false (tool_exclusive (snd entry))) false
       end)
    discoveredTools.

(** [doCheck], given what [this.mImpl.getProcessList()] and
    [this.mStore.getState()] return: the actions dispatched, in order,
    and the exception that ended the check, if any. *)
Definition doCheck (getProcessList : result (list (option IProcessInfo)))
    (state : IState) : list Action * option Error :=
  match getProcessList with
  | Throw e => ([], Some e)
  | Ok processes =>
      match reduce_byPid processes, reduce_byName processes with
      | Throw e, _ => ([], Some e)
      | Ok _, Throw e => ([], Some e)
      | Ok byPid, Ok byName =>
          let game := currentGame state in
          match gameExe state, gamePath state with
          | Some gameExe, Some gamePath =>
              let gameExePath := path_join [gamePath; gameExe] in
              let first := update byPid byName state gameExePath true true in
              match game with
              | None => (first, Some TypeError)
              | Some g =>
                  let discoveredTools :=
                    default [] (discovered state !! game_id g) in
                  (first ++ update_tools byPid byName state discoveredTools,
                   None)
              end
          | _, _ => ([], None)
          end
      end
  end.

End Tracker.
End Tracker.

(* ===================================================================== *)
(** ** The polling scheduler: [class ProcessMonitor] *)
(* ===================================================================== *)

Inductive Platform : Type := win32 | linux | other_platform.

Inductive IProcessMonitorImpl : Type :=
| ProcessMonitorImplWin32
| ProcessMonitorImplProcfs.

(** The handle [remote.getCurrentWindow()] returns. *)
Inductive BrowserWindow : Type := CurrentWindow.

Module ProcessMonitor.
Section Scheduler.

(** Whatever the check works on besides the monitor's own fields: the
    store behind [mStore], the process table, the file system. *)
Context {Env : Type}.

(** The monitor's fields together with the part of the runtime they
    interact with: the pending timers of the event loop (handle and
    delay in ms), electron's [remote], the focus of the window, and the
    lines passed to [log]. *)
Record World : Type := mkWorld {
  mTimer : option nat;
  mWindow : option BrowserWindow;
  mActive : bool;
  mImpl : option IProcessMonitorImpl;
  timers : list (nat * Z);
  nextTimer : nat;
  remote : option BrowserWindow;
  focused : bool;
  logged : list (string * string);
  env : Env;
}.

Definition set_mTimer (t : option nat) (w : World) : World :=
  mkWorld t (mWindow w) (mActive w) (mImpl w) (timers w) (nextTimer w)
          (remote w) (focused w) (logged w) (env w).

Definition set_mWindow (win : option BrowserWindow) (w : World) : World :=
  mkWorld (mTimer w) win (mActive w) (mImpl w) (timers w) (nextTimer w)
          (remote w) (focused w) (logged w) (env w).

Definition set_mActive (b : bool) (w : World) : World :=
  mkWorld (mTimer w) (mWindow w) b (mImpl w) (timers w) (nextTimer w)
          (remote w) (focused w) (logged w) (env w).

Definition set_timers (ts : list (nat * Z)) (w : World) : World :=
  mkWorld (mTimer w) (mWindow w) (mActive w) (mImpl w) ts (nextTimer w)
          (remote w) (focused w) (logged w) (env w).

Definition set_focused (b : bool) (w : World) : World :=
  mkWorld (mTimer w) (mWindow w) (mActive w) (mImpl w) (timers w)
          (nextTimer w) (remote w) b (logged w) (env w).

Definition set_env (e : Env) (w : World) : World :=
  mkWorld (mTimer w) (mWindow w) (mActive w) (mImpl w) (timers w)
          (nextTimer w) (remote w) (focused w) (logged w) e.

(** [log(level, message)] *)
Definition log (level message : string) (w : World) : World :=
  mkWorld (mTimer w) (mWindow w) (mActive w) (mImpl w) (timers w)
          (nextTimer w) (remote w) (focused w)
          (logged w ++ [(level, message)]) (env w).

(** [setTimeout(callback, delay)]: a fresh handle, one more pending timer. *)
Definition setTimeout (delay : Z) (w : World) : nat * World :=
  (nextTimer w,
   mkWorld (mTimer w) (mWindow w) (mActive w) (mImpl w)
           (timers w ++ [(nextTimer w, delay)]) (S (nextTimer w))
           (remote w) (focused w) (logged w) (env w)).

(** [clearTimeout(handle)]: the timer, if still pending, is dropped. *)
Definition clearTimeout (t : nat) (w : World) : World :=
  set_timers (List.filter (fun e => negb (Nat.eqb (fst e) t)) (timers w)) w.

(** [constructor(api)] *)
Definition constructor (platform : Platform) (rem : option BrowserWindow)
    (focus : bool) (e : Env) : World :=
  {| mTimer := None;
     mWindow := None;
     mActive := false;
     mImpl := match platform with
              | win32 => Some ProcessMonitorImplWin32
              | linux => Some ProcessMonitorImplProcfs
              | other_platform => None
              end;
     timers := [];
     nextTimer := O;
     remote := rem;
     focused := focus;
     logged := [];
     env := e |}.

(** [start()] *)
Definition start (w : World) : World :=
  match mImpl w with
  | None => w
  | Some _ =>
      if mActive w then w
      else
        let w1 := match mTimer w with
                  | Some t => clearTimeout t w
                  | None => w
                  end in
        let w2 := match remote w1 with
                  | Some win => set_mWindow (Some win) w1
                  | None => w1
                  end in
        let w3 := log "debug" "start process monitor" w2 in
        let '(t, w4) := setTimeout 2000 w3 in
        set_mActive true (set_mTimer (Some t) w4)
  end.

(** [end()] *)
Definition end_ (w : World) : World :=
  match mTimer w with
  | None => w
  | Some t =>
      let w1 := clearTimeout t w in
      let w2 := set_mTimer None w1 in
      let w3 := set_mActive false w2 in
      log "debug" "stop process monitor" w3
  end.

(** What [this.doCheck()] does to the world, and the exception it ends
    with, if any. *)
Variable doCheck : World -> World * option Error.

(** [this.mWindow === undefined || this.mWindow.isFocused()] *)
Definition window_absent_or_focused (w : World) : bool :=
  match mWindow w with
  | None => true
  | Some _ => focused w
  end.

(** [check()], the timer callback; an exception of [doCheck] leaves it
    uncaught. *)
Definition check (w : World) : World * option Error :=
  if negb (mActive w) then (w, None)
  else if window_absent_or_focused w then
    let '(w1, err) := doCheck w in
    match err with
    | Some e => (w1, Some e)
    | None =>
        if mActive w1 then
          let '(t, w2) := setTimeout 2000 w1 in
          (set_mTimer (Some t) w2, None)
        else (w1, None)
    end
  else
    let '(t, w1) := setTimeout 5000 w in
    (set_mTimer (Some t) w1, None).

(** The pending timer [t] expires: the event loop drops it and runs
    its callback. *)
Definition fire (t : nat) (w : World) : World * option Error :=
  check (clearTimeout t w).

(** What can happen to a monitor: its two public methods are called, a
    pending timer expires, the window gains or loses focus. *)
Inductive step : World -> World -> Prop :=
| step_start w : step w (start w)
| step_end w : step w (end_ w)
| step_tick w t d : In (t, d) (timers w) -> step w (fst (fire t w))
| step_focus w b : step w (set_focused b w).

Inductive reachable : World -> Prop :=
| reachable_new platform rem focus e :
    reachable (constructor platform rem focus e)
| reachable_step w w' : reachable w -> step w w' -> reachable w'.

(** [mTimer] and [mActive] agree on whether the monitor is idle. *)
Definition idle_consistent (w : World) : Prop :=
  mTimer w = None -> mActive w = false.

(** Every pending timer is the one [mTimer] holds, and there is at most one. *)
Definition single_pending (w : World) : Prop :=
  (length (timers w) <= 1)%nat
  /\ (forall t d, In (t, d) (timers w) -> mTimer w = Some t)
  /\ idle_consistent w.

(** The check arms and clears no timer, and it keeps [mTimer] and
    [mActive] in agreement (it leaves them alone, or resets both as
    [end] does when a subscriber of the store stops the monitor). *)
Definition doCheck_frame : Prop :=
  forall w : World,
    timers (fst (doCheck w)) = timers w
    /\ (idle_consistent w -> idle_consistent (fst (doCheck w))).

End Scheduler.
End ProcessMonitor.

(* ===================================================================== *)
(** ** The monitor on a host: scheduler and check wired together *)
(* ===================================================================== *)

Module Host.
Import ProcessMonitor.

(** What a check reads and writes outside the monitor: the file system
    under [/proc], the answer of [winapi.GetProcessList], the state of
    the store, the actions the store has received, and how often the
    process table has been enumerated. *)
Record Env : Type := mkEnv {
  fs : FileSystem;
  winProcessList : list IProcessInfo;
  state : IState;
  dispatched : list Action;
  enumerations : nat;
}.

Section Host.

Variable makeExeId : string -> string.
Variable path_join : list string -> string.
Variable GetModuleList : number -> list ModuleEntry.t.
Variable vortexPid : number.

(** [this.mImpl.getProcessList()] *)
Definition getProcessList (impl : option IProcessMonitorImpl) (e : Env)
  : result (list (option IProcessInfo)) :=
  match impl with
  | None => Throw TypeError
  | Some ProcessMonitorImplWin32 => Ok (map Some (winProcessList e))
  | Some ProcessMonitorImplProcfs =>
      ProcessMonitorImplProcfs.getProcessList path_join (fs e)
  end.

(** [doCheck] as the scheduler sees it. *)
Definition doCheck (w : World) : World * option Error :=
  let e := env w in
  let '(actions, err) :=
    Tracker.doCheck makeExeId path_join GetModuleList vortexPid
      (getProcessList (mImpl w) e) (state e) in
  (set_env {| fs := fs e;
              winProcessList := winProcessList e;
              state := state e;
              dispatched := dispatched e ++ actions;
              enumerations := S (enumerations e) |} w,
   err).

End Host.

(** *** Concrete stand-ins for the imported functions, for examples *)

(** Text after the last ["/"] of a path. *)
Fixpoint basename (s : string) : string :=
  match s with
  | EmptyString => EmptyString
  | String c s' =>
      if existsb (Ascii.eqb "/") (list_ascii_of_string s') then basename s'
      else if Ascii.eqb c "/" then s' else s
  end.

(** Modelled from the spec: [makeExeId] of [reducers/session] is not
    among the sources; the spec calls the key "a normalized key derived
    from a full executable path (lower-cased file name)". *)
Definition makeExeId_spec (exePath : string) : string :=
  toLowerCase (basename exePath).

(** [path.join] on segments that need no normalisation. *)
Definition path_join_posix (segments : list string) : string :=
  String.concat "/" segments.

End Host.

(* ===================================================================== *)
(** ** Scenarios used in examples *)
(* ===================================================================== *)

(** The snapshot of the cycle scenario: pid 10 has parent 20 and pid 20
    has parent 10; the monitor itself is pid 1. *)
Definition cycle_p10 : IProcessInfo := mkProcessInfo (Num 10) (Num 20) "a.exe".
Definition cycle_p20 : IProcessInfo := mkProcessInfo (Num 20) (Num 10) "b.exe".
Definition cycle_byPid : gmap number IProcessInfo :=
  <[Num 20 := cycle_p20]> (<[Num 10 := cycle_p10]> ∅).

(** The module-path disambiguation scenario: two processes named
    [tool.exe]; only pid 200 runs the configured binary.  Pid 300 is a
    third [tool.exe] whose modules cannot be listed. *)
Definition tool_path_example : string := "/configured/path/tool.exe".

Definition modules_example (p : number) : list ModuleEntry.t :=
  match p with
  | Num 100 => [ModuleEntry.mk "/other/tool.exe"]
  | Num 200 => [ModuleEntry.mk "/Configured/Path/Tool.EXE";
                ModuleEntry.mk "/lib/libc.so"]
  | _ => []
  end.

Definition tool_p100 : IProcessInfo := mkProcessInfo (Num 100) (Num 1) "tool.exe".
Definition tool_p200 : IProcessInfo := mkProcessInfo (Num 200) (Num 1) "Tool.exe".
Definition tool_p300 : IProcessInfo := mkProcessInfo (Num 300) (Num 1) "tool.exe".
Definition tool_processes : list (option IProcessInfo) :=
  [Some tool_p300; Some tool_p100; Some tool_p200].

Definition tool_byPid : gmap number IProcessInfo :=
  <[Num 200 := tool_p200]> (<[Num 100 := tool_p100]> (<[Num 300 := tool_p300]> ∅)).
Definition tool_byName : gmap string (list IProcessInfo) :=
  {[ "tool.exe"%string := [tool_p300; tool_p100; tool_p200] ]}.

(** The same three processes started by somebody else (parent pid 7, a
    process that is not in the table). *)
Definition stray_p100 : IProcessInfo := mkProcessInfo (Num 100) (Num 7) "tool.exe".
Definition stray_p200 : IProcessInfo := mkProcessInfo (Num 200) (Num 7) "Tool.exe".
Definition stray_byPid : gmap number IProcessInfo :=
  <[Num 200 := stray_p200]> (<[Num 100 := stray_p100]> ∅).
Definition stray_byName : gmap string (list IProcessInfo) :=
  {[ "tool.exe"%string := [stray_p100; stray_p200] ]}.

(** Only the two processes that cannot be confirmed. *)
Definition unconfirmed_byPid : gmap number IProcessInfo :=
  <[Num 100 := tool_p100]> (<[Num 300 := tool_p300]> ∅).
Definition unconfirmed_byName : gmap string (list IProcessInfo) :=
  {[ "tool.exe"%string := [tool_p300; tool_p100] ]}.

(** A table without any [tool.exe]: pid 5 now belongs to [other.exe]. *)
Definition other_p5 : IProcessInfo := mkProcessInfo (Num 5) (Num 1) "other.exe".
Definition other_processes : list (option IProcessInfo) := [Some other_p5].
Definition other_byPid : gmap number IProcessInfo := <[Num 5 := other_p5]> ∅.

(** Store states: nothing known; the tool known under pid 5; the tool
    known under pid 100. *)
Definition game_example : IGameStored := mkGameStored "game" (Some "tool.exe"%string).
Definition discovery_example : IDiscoveryResult :=
  mkDiscoveryResult (Some "/configured/path"%string) None.

Definition state_known (known : gmap string IRunningTool) : IState :=
  {| currentGame := Some game_example;
     currentGameDiscovery := Some discovery_example;
     toolsRunning := known;
     discovered := ∅ |}.

Definition state_fresh : IState := state_known ∅.
Definition state_known5 : IState :=
  state_known {[ "tool.exe"%string := mkRunningTool (Num 5) true ]}.
Definition state_known100 : IState :=
  state_known {[ "tool.exe"%string := mkRunningTool (Num 100) true ]}.

(** A state whose discovery result lacks the path. *)
Definition state_no_path : IState :=
  {| currentGame := Some game_example;
     currentGameDiscovery := Some (mkDiscoveryResult None (Some "tool.exe"%string));
     toolsRunning := {[ "tool.exe"%string := mkRunningTool (Num 5) true ]};
     discovered := ∅ |}.

(** A [/proc] with the monitor (pid 1) and the three tools. *)
Definition stat_file (pidStr : string) : string :=
  Host.path_join_posix ["/proc"; pidStr; "stat"]%string.

Definition read_example (path : string) : result string :=
  if String.eqb path (stat_file "1") then
    Ok "1 (vortex) S 0 1 1 0 -1 4194560"%string
  else if String.eqb path (stat_file "100") then
    Ok "100 (tool.exe) S 1 100 100 0 -1 4194304"%string
  else if String.eqb path (stat_file "200") then
    Ok "200 (Tool.exe) S 1 200 200 0 -1 4194304"%string
  else if String.eqb path (stat_file "300") then
    Ok "300 (tool.exe) R 1 300 300 0 -1 4194304"%string
  else Throw (SystemError "ENOENT").

Definition readdir_example (path : string) : result (list string) :=
  if String.eqb path "/proc" then
    Ok ["1"; "100"; "self"; "200"; "300"; "uptime"]%string
  else Throw (SystemError "ENOENT").

Definition fs_example : FileSystem :=
  mkFileSystem readdir_example read_example.

(** Pid 300 exits between the listing and the read of its status file. *)
Definition fs_vanished : FileSystem :=
  mkFileSystem readdir_example
    (fun path =>
       if String.eqb path (stat_file "300") then Throw (SystemError "ENOENT")
       else read_example path).

(** The status file of pid 300 cannot be read for another reason. *)
Definition fs_denied : FileSystem :=
  mkFileSystem readdir_example
    (fun path =>
       if String.eqb path (stat_file "300") then Throw (SystemError "EACCES")
       else read_example path).

Definition vortex_p1 : IProcessInfo := mkProcessInfo (Num 1) (Num 0) "vortex".

(** A monitor on linux, in a renderer process with a window. *)
Definition env_example (fs : FileSystem) : Host.Env :=
  Host.mkEnv fs [] state_fresh [] 0.

Definition doCheck_example
  : @ProcessMonitor.World Host.Env -> @ProcessMonitor.World Host.Env * option Error :=
  Host.doCheck Host.makeExeId_spec Host.path_join_posix modules_example (Num 1).

Definition world_new (focus : bool) (fs : FileSystem)
  : @ProcessMonitor.World Host.Env :=
  ProcessMonitor.constructor linux (Some CurrentWindow) focus (env_example fs).

(** A check during which a subscriber of the store stops and restarts
    the monitor. *)
Definition doCheck_restarting (w : @ProcessMonitor.World Host.Env)
  : @ProcessMonitor.World Host.Env * option Error :=
  (ProcessMonitor.start (ProcessMonitor.end_ w), None).

(* ===================================================================== *)
(** ** Notions used to state further properties *)
(* ===================================================================== *)

Module Ancestry.
Section Ancestry.

Variable vortexPid : number.
Variable byPid : gmap number IProcessInfo.

(** The record reached from [p] by following [k] parent links in the
    table, if all of them lead to a record. *)
Fixpoint ancestor (k : nat) (p : IProcessInfo) : option IProcessInfo :=
  match k with
  | O => Some p
  | S k' => byPid !! parentProcessID p ≫= ancestor k'
  end.

(** The record [k] links above [p] is a direct child of the monitor. *)
Definition hits (k : nat) (p : IProcessInfo) : bool :=
  match ancestor k p with
  | Some q => strict_eq (parentProcessID q) vortexPid
  | None => false
  end.

(** [p] descends from the monitor: some record on its parent chain is a
    direct child of the monitor, and no record of the chain up to there
    names 0 as its parent. *)
Definition is_descendant (p : IProcessInfo) : Prop :=
  exists k,
    hits k p = true
    /\ forall i q, (i <= k)%nat -> ancestor i p = Some q ->
                   strict_eq (parentProcessID q) (Num 0) = false.

End Ancestry.
End Ancestry.

(** The character [c] occurs in [s]. *)
Fixpoint occurs (c : ascii) (s : string) : bool :=
  match s with
  | EmptyString => false
  | String d s' => Ascii.eqb c d || occurs c s'
  end.

(** The paths a check calls [update] for: the executable of the game,
    then the discovered tools of the game that have a path, in key order. *)
Definition target_paths (path_join : list string -> string) (state : IState)
  : list string :=
  match Tracker.gameExe state, Tracker.gamePath state with
  | Some exe, Some dir =>
      path_join [dir; exe]
      :: match currentGame state with
         | Some g =>
             omap (fun entry : string * IDiscoveredTool => tool_path (snd entry))
               (default [] (discovered state !! game_id g))
         | None => []
         end
  | _, _ => []
  end.

Module Runs.
Import ProcessMonitor.
Section Runs.

Context {Env : Type}.
Variable doCheck : @World Env -> @World Env * option Error.

(** The states a given monitor can get to. *)
Inductive run (w0 : @World Env) : @World Env -> Prop :=
| run_here : run w0 w0
| run_step w w' : run w0 w -> step doCheck w w' -> run w0 w'.

(** The check leaves the monitor's fields, the timers and the log
    alone: it only works on its environment. *)
Definition env_only : Prop :=
  forall w, exists e, fst (doCheck w) = set_env e w.

(** The two lines the monitor logs. *)
Definition log_start : string * string :=
  ("debug", "start process monitor")%string.
Definition log_stop : string * string :=
  ("debug", "stop process monitor")%string.

(** What holds of the monitor between two calls. *)
Definition well_formed (w : @World Env) : Prop :=
  (mActive w = true -> mImpl w <> None)
  /\ (mActive w = false -> mTimer w = None)
  /\ (mWindow w <> None -> remote w <> None)
  /\ (forall t d, In (t, d) (timers w) ->
                  d = 2000 \/ (d = 5000 /\ mWindow w <> None))
  /\ exists n,
       logged w
       = concat (repeat [log_start; log_stop] n)
         ++ (if mActive w then [log_start] else []).

End Runs.
End Runs.

(** A chain of three: the monitor (pid 1) started a launcher (pid 50),
    which started the game (pid 60); pid 70 hangs off pid 0. *)
Definition chain_p50 : IProcessInfo := mkProcessInfo (Num 50) (Num 1) "launcher".
Definition chain_p60 : IProcessInfo := mkProcessInfo (Num 60) (Num 50) "game.exe".
Definition chain_p70 : IProcessInfo := mkProcessInfo (Num 70) (Num 0) "init".
Definition chain_byPid : gmap number IProcessInfo :=
  <[Num 70 := chain_p70]> (<[Num 60 := chain_p60]> (<[Num 50 := chain_p50]> ∅)).

(** A game known to the discovery but not to the store's list of games. *)
Definition state_unknown_game : IState :=
  {| currentGame := None;
     currentGameDiscovery :=
       Some (mkDiscoveryResult (Some "/configured/path"%string)
               (Some "tool.exe"%string));
     toolsRunning := ∅;
     discovered := ∅ |}.

(* ===================================================================== *)
(** ** The targets of a check *)
(* ===================================================================== *)

(** The three arguments of a call of [update]. *)
Record Target : Type := mkTarget {
  target_path : string;
  target_exclusive : bool;
  target_detached : bool;
}.

(** The calls of [update] a check makes, in order: the executable of the
    game (exclusive, detached matches allowed), then the discovered tools
    of the game that have a path, in key order (not detached; [exclusive]
    defaults to [false]).  Without the game's executable or path there is
    none; without the game itself [game.id] throws and only the game's
    executable is handled. *)
Definition targets (path_join : list string -> string) (state : IState)
  : list Target :=
  match Tracker.gameExe state, Tracker.gamePath state with
  | Some exe, Some dir =>
      mkTarget (path_join [dir; exe]) true true
      :: match currentGame state with
         | Some g =>
             omap (fun entry : string * IDiscoveredTool =>
                     match tool_path (snd entry) with
                     | Some p =>
                         Some (mkTarget p
                                 (default false (tool_exclusive (snd entry)))
                                 false)
                     | None => None
                     end)
               (default [] (discovered state !! game_id g))
         | None => []
         end
  | _, _ => []
  end.

(** What [update] dispatches for a target. *)
Definition update_target (makeExeId : string -> string)
    (GetModuleList : number -> list ModuleEntry.t) (vortexPid : number)
    (byPid : gmap number IProcessInfo)
    (byName : gmap string (list IProcessInfo)) (state : IState)
    (t : Target) : list Action :=
  Tracker.update makeExeId GetModuleList vortexPid byPid byName state
    (target_path t) (target_exclusive t) (target_detached t).

(** The actions of a list that carry the path [P]. *)
Definition actions_for (P : string) (actions : list Action) : list Action :=
  List.filter (fun a => String.eqb (action_path a) P) actions.

(** The property names a plain object inherits from [Object.prototype].
    Looking one of them up in [byName] or [toolsRunning] yields the
    inherited member, not [undefined]; the maps of this development do
    not model that, so statements about what a check does dispatch
    exclude targets with such an exe id. *)
Definition object_prototype_names : list string :=
  ["constructor"; "hasOwnProperty"; "isPrototypeOf"; "propertyIsEnumerable";
   "toLocaleString"; "toString"; "valueOf"; "__proto__";
   "__defineGetter__"; "__defineSetter__"; "__lookupGetter__";
   "__lookupSetter__"]%string.

Definition plain_key (key : string) : bool :=
  negb (existsb (String.eqb key) object_prototype_names).

Definition plain_targets (makeExeId : string -> string) (ts : list Target)
  : bool :=
  forallb (fun t => plain_key (makeExeId (target_path t))) ts.

(** The tool is the game's only discovered tool with a path; the game's
    own executable is [game.exe]. *)
Definition game_with_tool : IGameStored :=
  mkGameStored "game" (Some "game.exe"%string).

Definition state_with_tool (known : gmap string IRunningTool) : IState :=
  {| currentGame := Some game_with_tool;
     currentGameDiscovery := Some discovery_example;
     toolsRunning := known;
     discovered :=
       {[ "game"%string :=
            [("broken"%string, mkDiscoveredTool None (Some true));
             ("tool"%string,
              mkDiscoveredTool (Some tool_path_example) None)] ]} |}.

(** The game's executable is also listed as one of its tools. *)
Definition state_listed_twice (known : gmap string IRunningTool) : IState :=
  {| currentGame := Some game_example;
     currentGameDiscovery := Some discovery_example;
     toolsRunning := known;
     discovered :=
       {[ "game"%string :=
            [("tool"%string,
              mkDiscoveredTool (Some tool_path_example) None)] ]} |}.

Definition known5 : gmap string IRunningTool :=
  {[ "tool.exe"%string := mkRunningTool (Num 5) true ]}.

Definition unconfirmed_processes : list (option IProcessInfo) :=
  [Some tool_p300; Some tool_p100].

(* ===================================================================== *)
(** * Properties *)
(* ===================================================================== *)

#[local] Set Default Proof Using "Type".

(** ** The ancestry walk *)

Section AncestryWalk.

Variable vortexPid : number.
Variable byPid : gmap number IProcessInfo.

Local Abbreviation walk := (Tracker.isChildProcess_fuel vortexPid byPid).
Local Abbreviation isChildProcess := (Tracker.isChildProcess vortexPid byPid).
Local Abbreviation walk_bound := (Tracker.walk_bound byPid).
Local Abbreviation unvisited := (Tracker.unvisited byPid).
Local Abbreviation walk_step := (Tracker.isChildProcess_step vortexPid byPid).

Lemma walk_fuel_S fuel proc visited b :
  walk fuel proc visited = Some b -> walk (S fuel) proc visited = Some b.
Proof.
  revert proc visited.
  induction fuel as [|fuel IH]; intros proc visited H; [discriminate|].
  cbn [Tracker.isChildProcess_fuel] in H |- *.
  destruct proc as [p|]; [|exact H].
  destruct (strict_eq (parentProcessID p) (Num 0)); [exact H|].
  destruct (bool_decide (parentProcessID p ∈ visited)); [exact H|].
  destruct (strict_eq (parentProcessID p) vortexPid); [exact H|].
  apply IH in H. exact H.
Qed.

Lemma walk_fuel_le fuel fuel' proc visited b :
  (fuel <= fuel')%nat ->
  walk fuel proc visited = Some b -> walk fuel' proc visited = Some b.
Proof.
  induction 1 as [|k _ IH]; [tauto|].
  intros H. apply walk_fuel_S, IH, H.
Qed.

Lemma unvisited_insert k visited :
  is_Some (byPid !! k) -> k ∉ visited ->
  (S (unvisited ({[k]} ∪ visited)) <= unvisited visited)%nat.
Proof.
  intros Hk Hnot. unfold Tracker.unvisited.
  apply (elem_of_dom (D := gset number)) in Hk.
  assert (Heq : dom byPid ∖ visited
                = {[k]} ∪ (dom byPid ∖ ({[k]} ∪ visited))).
  { apply set_eq. intros x.
    rewrite elem_of_union, !elem_of_difference, elem_of_union,
      elem_of_singleton.
    destruct (decide (x = k)) as [->|Hne]; tauto. }
  rewrite Heq.
  rewrite (size_union {[k]} (dom byPid ∖ ({[k]} ∪ visited))).
  2: { intros x Hx. rewrite elem_of_difference, elem_of_union. tauto. }
  rewrite size_singleton. lia.
Qed.

Lemma walk_fuel_enough fuel proc visited :
  (unvisited visited + 2 <= fuel)%nat \/ (proc = None /\ (1 <= fuel)%nat) ->
  is_Some (walk fuel proc visited).
Proof.
  revert proc visited.
  induction fuel as [|fuel IH]; intros proc visited Hfuel; [lia|].
  cbn [Tracker.isChildProcess_fuel].
  destruct proc as [p|]; [|by eexists].
  destruct Hfuel as [Hfuel|[? _]]; [|discriminate].
  destruct (strict_eq (parentProcessID p) (Num 0)); [by eexists|].
  destruct (bool_decide (parentProcessID p ∈ visited)) eqn:Hvis; [by eexists|].
  destruct (strict_eq (parentProcessID p) vortexPid); [by eexists|].
  apply bool_decide_eq_false in Hvis.
  apply IH.
  destruct (byPid !! parentProcessID p) as [q|] eqn:Hq.
  - left.
    pose proof (unvisited_insert (parentProcessID p) visited
                  (mk_is_Some _ _ Hq) Hvis).
    lia.
  - right. split; [reflexivity | lia].
Qed.

Lemma unvisited_le_size visited : (unvisited visited <= size byPid)%nat.
Proof.
  unfold Tracker.unvisited. rewrite <- (size_dom (D := gset number) byPid).
  apply subseteq_size. intros x. rewrite elem_of_difference. tauto.
Qed.

Lemma walk_bound_enough proc visited :
  is_Some (walk walk_bound proc visited).
Proof.
  apply walk_fuel_enough. left.
  pose proof (unvisited_le_size visited).
  unfold Tracker.walk_bound. lia.
Qed.

Lemma walk_isChildProcess fuel proc visited :
  (walk_bound <= fuel)%nat ->
  walk fuel proc visited = Some (isChildProcess proc visited).
Proof.
  intros Hle. unfold Tracker.isChildProcess.
  destruct (walk_bound_enough proc visited) as [b Hb].
  rewrite Hb. cbn. eapply walk_fuel_le; eauto.
Qed.

(** The total walk satisfies the recursive equation of the source. *)
Lemma isChildProcess_unfold proc visited :
  isChildProcess proc visited = walk_step isChildProcess proc visited.
Proof.
  pose proof (walk_isChildProcess (S walk_bound) proc visited
                (ltac:(lia))) as H.
  cbn [Tracker.isChildProcess_fuel] in H.
  unfold Tracker.isChildProcess_step.
  destruct proc as [p|]; [|congruence].
  destruct (strict_eq (parentProcessID p) (Num 0)); [congruence|].
  destruct (bool_decide (parentProcessID p ∈ visited)); [congruence|].
  destruct (strict_eq (parentProcessID p) vortexPid);
    [cbn [orb]; congruence|].
  rewrite (walk_isChildProcess walk_bound) in H by lia.
  cbn [orb]. congruence.
Qed.

End AncestryWalk.

Example isChildProcess_cycle :
  Tracker.isChildProcess (Num 1) cycle_byPid (Some cycle_p10) ∅ = false
  /\ Tracker.isChildProcess_fuel (Num 1) cycle_byPid 3 (Some cycle_p10) ∅
     = Some false.
Proof. split; vm_compute; reflexivity. Qed.

Example isChildProcess_direct_child :
  Tracker.isChildProcess (Num 20) cycle_byPid (Some cycle_p10) ∅ = true.
Proof. vm_compute. reflexivity. Qed.

(** C1.  For every process table [byPid], every record (or absent record)
    [proc] and every visited set, the ancestry walk terminates with a
    boolean: with any recursion bound of at least [walk_bound byPid] the
    bounded walk returns [Some] of the value of [isChildProcess], cyclic
    parent chains included.  The value obeys the recursion of the source;
    it is [false] when the record is absent, when its parent pid is 0, and
    when its parent pid is already in the visited set. *)
Theorem isChildProcess_terminates
    (vortexPid : number) (byPid : gmap number IProcessInfo)
    (proc : option IProcessInfo) (visited : gset number) :
  (forall extra : nat,
      Tracker.isChildProcess_fuel vortexPid byPid
        (Tracker.walk_bound byPid + extra) proc visited
      = Some (Tracker.isChildProcess vortexPid byPid proc visited))
  /\ Tracker.isChildProcess vortexPid byPid proc visited
     = Tracker.isChildProcess_step vortexPid byPid
         (Tracker.isChildProcess vortexPid byPid) proc visited
  /\ (proc = None ->
      Tracker.isChildProcess vortexPid byPid proc visited = false)
  /\ (forall p, proc = Some p -> parentProcessID p = Num 0 ->
      Tracker.isChildProcess vortexPid byPid proc visited = false)
  /\ (forall p, proc = Some p -> parentProcessID p ∈ visited ->
      Tracker.isChildProcess vortexPid byPid proc visited = false).
Proof.
  split; [|split; [|split; [|split]]].
  - intros extra. apply walk_isChildProcess. lia.
  - apply isChildProcess_unfold.
  - intros ->. rewrite isChildProcess_unfold. reflexivity.
  - intros p -> Hp. rewrite isChildProcess_unfold.
    unfold Tracker.isChildProcess_step. rewrite Hp. reflexivity.
  - intros p -> Hp. rewrite isChildProcess_unfold.
    unfold Tracker.isChildProcess_step.
    destruct (strict_eq (parentProcessID p) (Num 0)); [reflexivity|].
    rewrite bool_decide_eq_true_2 by exact Hp. reflexivity.
Qed.

Lemma isChildProcess_terminates_witness :
  Tracker.isChildProcess_fuel (Num 1) cycle_byPid
    (Tracker.walk_bound cycle_byPid + 0) (Some cycle_p10) ∅
  = Some (Tracker.isChildProcess (Num 1) cycle_byPid (Some cycle_p10) ∅)
  /\ Tracker.isChildProcess (Num 1) cycle_byPid None ∅ = false
  /\ Tracker.isChildProcess (Num 1) cycle_byPid
       (Some (mkProcessInfo (Num 30) (Num 0) "c.exe")) ∅ = false
  /\ Tracker.isChildProcess (Num 1) cycle_byPid
       (Some cycle_p20) {[Num 10]} = false.
Proof.
  split; [|split; [|split]].
  - apply (isChildProcess_terminates (Num 1) cycle_byPid (Some cycle_p10) ∅).
  - apply (isChildProcess_terminates (Num 1) cycle_byPid None ∅).
    reflexivity.
  - apply (proj1 (proj2 (proj2 (proj2
             (isChildProcess_terminates (Num 1) cycle_byPid
                (Some (mkProcessInfo (Num 30) (Num 0) "c.exe")) ∅))))
             (mkProcessInfo (Num 30) (Num 0) "c.exe"));
      reflexivity.
  - apply (proj2 (proj2 (proj2 (proj2
             (isChildProcess_terminates (Num 1) cycle_byPid
                (Some cycle_p20) {[Num 10]}))))
             cycle_p20); [reflexivity|].
    apply elem_of_singleton. reflexivity.
Defined.

(** ** Auxiliary facts on lists and on the name index *)

Lemma find_first {A} (f : A -> bool) before m after :
  (forall c, In c before -> f c = false) -> f m = true ->
  List.find f (before ++ m :: after) = Some m.
Proof.
  intros Hbefore Hm. induction before as [|c before IH]; cbn.
  - rewrite Hm. reflexivity.
  - rewrite (Hbefore c) by (left; reflexivity).
    apply IH. intros c' Hc'. apply Hbefore. right. exact Hc'.
Qed.

Lemma find_all_false {A} (f : A -> bool) l :
  (forall c, In c l -> f c = false) -> List.find f l = None.
Proof.
  intros H. induction l as [|c l IH]; cbn; [reflexivity|].
  rewrite (H c) by (left; reflexivity).
  apply IH. intros c' Hc'. apply H. right. exact Hc'.
Qed.

Lemma foldl_bind_Throw {A B} (f : A -> B -> result A) e l :
  foldl (fun acc x => bind acc (fun prev => f prev x)) (Throw e) l = Throw e.
Proof. induction l as [|x l IH]; cbn; [reflexivity | exact IH]. Qed.

(** The keys of [byName] are the lower-cased names of the processes. *)
Lemma reduce_byName_keys_from processes m byName key :
  foldl
    (fun acc entry =>
       bind acc (fun prev =>
         match entry with
         | None => Throw TypeError
         | Some e =>
             Ok (Tracker.setdefault_push prev (toLowerCase (exeFile e)) e)
         end))
    (Ok m) processes = Ok byName ->
  (is_Some (byName !! key) <->
   is_Some (m !! key)
   \/ exists p, In (Some p) processes /\ toLowerCase (exeFile p) = key).
Proof.
  revert m. induction processes as [|x l IH]; intros m H; cbn in H.
  - injection H as <-. split; [tauto|].
    intros [H|(p & [] & _)]. exact H.
  - destruct x as [e|].
    + apply IH in H. rewrite H. clear H IH.
      unfold Tracker.setdefault_push.
      destruct (decide (toLowerCase (exeFile e) = key)) as [Hk|Hk].
      * subst key. rewrite lookup_insert_eq. split.
        -- intros _. right. exists e. split; [left|]; reflexivity.
        -- intros _. left. by eexists.
      * rewrite lookup_insert_ne by exact Hk. split.
        -- intros [H|(p & Hp & Hkey)]; [tauto|].
           right. exists p. split; [right; exact Hp | exact Hkey].
        -- intros [H|(p & [Hp|Hp] & Hkey)]; [tauto| |].
           ++ injection Hp as ->. contradiction.
           ++ right. exists p. tauto.
    + rewrite (foldl_bind_Throw
                 (fun prev entry =>
                    match entry with
                    | None => Throw TypeError
                    | Some e =>
                        Ok (Tracker.setdefault_push prev
                              (toLowerCase (exeFile e)) e)
                    end)) in H.
      discriminate.
Qed.

Lemma reduce_byName_keys processes byName key :
  Tracker.reduce_byName processes = Ok byName ->
  (is_Some (byName !! key) <->
   exists p, In (Some p) processes /\ toLowerCase (exeFile p) = key).
Proof.
  intros H. rewrite (reduce_byName_keys_from processes ∅ byName key H).
  rewrite lookup_empty. split; [|tauto].
  intros [[? ?]|H']; [discriminate | exact H'].
Qed.

(** ** The per-target decision *)

Section Update.

Variable makeExeId : string -> string.
Variable GetModuleList : number -> list ModuleEntry.t.
Variable vortexPid : number.
Variable byPid : gmap number IProcessInfo.
Variable byName : gmap string (list IProcessInfo).
Variable state : IState.

Local Abbreviation update :=
  (Tracker.update makeExeId GetModuleList vortexPid byPid byName state).
Local Abbreviation confirmed := (Tracker.confirmed GetModuleList).
Local Abbreviation candidates_of := (Tracker.candidates_of vortexPid byPid).
Local Abbreviation knownRunning P := (toolsRunning state !! makeExeId P).

Lemma confirmed_spec P exe :
  confirmed P exe = true <->
  exists m rest,
    GetModuleList (processID exe) = m :: rest
    /\ toLowerCase (ModuleEntry.exePath m) = toLowerCase P.
Proof.
  unfold Tracker.confirmed.
  destruct (GetModuleList (processID exe)) as [|m rest].
  - split; [discriminate|]. intros (m & rest & H & _). discriminate.
  - rewrite String.eqb_eq. split.
    + intros H. exists m, rest. split; [reflexivity | exact H].
    + intros (m' & rest' & H & Heq). injection H as -> ->. exact Heq.
Qed.

Lemma confirmed_empty_modules P exe :
  GetModuleList (processID exe) = [] -> confirmed P exe = false.
Proof. unfold Tracker.confirmed. intros ->. reflexivity. Qed.

(** Every action [update] dispatches carries the path it was called with. *)
Lemma update_action_path P excl det a :
  In a (update P excl det) -> action_path a = P.
Proof.
  unfold Tracker.update.
  repeat (match goal with
          | |- context [match ?x with _ => _ end] => destruct x
          end; cbn);
    intros H; repeat (destruct H as [<-|H]; [reflexivity|]); destruct H.
Qed.

(** [update] dispatches at most one action. *)
Lemma update_length P excl det : (length (update P excl det) <= 1)%nat.
Proof.
  unfold Tracker.update.
  repeat (match goal with
          | |- context [match ?x with _ => _ end] => destruct x
          end; cbn); lia.
Qed.

(** No process carries the executable name: stopped, if known. *)
Lemma update_no_process P excl det :
  byName !! makeExeId P = None ->
  update P excl det
  = if bool_decide (is_Some (knownRunning P)) then [setToolStopped P] else [].
Proof. unfold Tracker.update. intros ->. reflexivity. Qed.

(** Steady state: the known pid is in the table and the name is there. *)
Lemma update_still_running P excl det k running :
  knownRunning P = Some k ->
  is_Some (byPid !! pid k) ->
  byName !! makeExeId P = Some running ->
  update P excl det = [].
Proof.
  unfold Tracker.update. intros -> Hpid ->. cbn.
  rewrite (bool_decide_eq_true_2 (is_Some (byPid !! pid k))) by exact Hpid.
  reflexivity.
Qed.

(** Past the steady-state test, the outcome is that of [find]. *)
Lemma update_find P excl det running :
  byName !! makeExeId P = Some running ->
  knownRunning P ≫= (fun k => byPid !! pid k) = None ->
  update P excl det
  = match List.find (confirmed P) (candidates_of det running) with
    | Some m => [setToolPid P (processID m) excl]
    | None =>
        if bool_decide (is_Some (knownRunning P)) then [setToolStopped P]
        else []
    end.
Proof.
  unfold Tracker.update. intros -> ->.
  rewrite (bool_decide_eq_false_2 (is_Some None)) by (intros [? ?]; discriminate).
  rewrite andb_false_r. reflexivity.
Qed.

Lemma candidates_incl det running c :
  In c (candidates_of det running) -> In c running.
Proof.
  unfold Tracker.candidates_of. destruct det; [exact (fun H => H)|].
  intros H. apply filter_In in H. exact (proj1 H).
Qed.

End Update.

(** ** The check as a whole *)

Section DoCheck.

Variable makeExeId : string -> string.
Variable path_join : list string -> string.
Variable GetModuleList : number -> list ModuleEntry.t.
Variable vortexPid : number.

Local Abbreviation update :=
  (Tracker.update makeExeId GetModuleList vortexPid).
Local Abbreviation doCheck :=
  (Tracker.doCheck makeExeId path_join GetModuleList vortexPid).

Lemma update_tools_In byPid byName state tools a :
  In a (Tracker.update_tools makeExeId GetModuleList vortexPid
          byPid byName state tools) ->
  exists excl, In a (update byPid byName state (action_path a) excl false).
Proof.
  unfold Tracker.update_tools. rewrite in_flat_map.
  intros ([toolId tool] & _ & H). cbn in H.
  destruct (tool_path tool) as [p|]; [|destruct H].
  rewrite (update_action_path _ _ _ _ _ _ _ _ _ _ H).
  eexists. exact H.
Qed.

(** Every action of a check was dispatched by a call of [update] with
    the action's path, on the indices built from the process list. *)
Lemma doCheck_actions getProcessList state a :
  In a (fst (doCheck getProcessList state)) ->
  exists processes byPid byName excl det,
    getProcessList = Ok processes
    /\ Tracker.reduce_byPid processes = Ok byPid
    /\ Tracker.reduce_byName processes = Ok byName
    /\ In a (update byPid byName state (action_path a) excl det).
Proof.
  unfold Tracker.doCheck.
  destruct getProcessList as [processes|e]; [|intros []].
  destruct (Tracker.reduce_byPid processes) as [byPid|e] eqn:HbyPid;
    [|intros []].
  destruct (Tracker.reduce_byName processes) as [byName|e] eqn:HbyName;
    [|intros []].
  destruct (Tracker.gameExe state) as [exe|]; [|intros []].
  destruct (Tracker.gamePath state) as [dir|]; [|intros []].
  intros H. exists processes, byPid, byName.
  assert (Hgoal : exists excl det,
             In a (update byPid byName state (action_path a) excl det)).
  { destruct (currentGame state) as [g|]; cbn [fst] in H.
    - apply in_app_or in H. destruct H as [H|H].
      + rewrite (update_action_path _ _ _ _ _ _ _ _ _ _ H).
        exists true, true. exact H.
      + apply update_tools_In in H. destruct H as [excl H].
        exists excl, false. exact H.
    - rewrite (update_action_path _ _ _ _ _ _ _ _ _ _ H).
      exists true, true. exact H. }
  destruct Hgoal as (excl & det & Hin).
  exists excl, det. tauto.
Qed.

(** Without the game's executable or path the check returns before any
    call of [update]. *)
Lemma doCheck_no_game getProcessList state :
  Tracker.gameExe state = None \/ Tracker.gamePath state = None ->
  fst (doCheck getProcessList state) = [].
Proof.
  intros H. unfold Tracker.doCheck.
  destruct getProcessList as [processes|e]; [|reflexivity].
  destruct (Tracker.reduce_byPid processes); [|reflexivity].
  destruct (Tracker.reduce_byName processes); [|reflexivity].
  destruct H as [-> | ->]; [reflexivity|].
  destruct (Tracker.gameExe state); reflexivity.
Qed.

End DoCheck.

(** ** Examples of the decision procedure *)

Example reduce_tool_processes :
  Tracker.reduce_byPid tool_processes = Ok tool_byPid
  /\ Tracker.reduce_byName tool_processes = Ok tool_byName.
Proof. split; vm_compute; reflexivity. Qed.

Example update_disambiguates :
  Tracker.update Host.makeExeId_spec modules_example (Num 1)
    tool_byPid tool_byName state_fresh tool_path_example false false
  = [setToolPid tool_path_example (Num 200) false].
Proof. vm_compute. reflexivity. Qed.

Example doCheck_disambiguates :
  Tracker.doCheck Host.makeExeId_spec Host.path_join_posix modules_example
    (Num 1) (Ok tool_processes) state_fresh
  = ([setToolPid tool_path_example (Num 200) true], None).
Proof. vm_compute. reflexivity. Qed.

Example doCheck_pid_reused :
  Tracker.doCheck Host.makeExeId_spec Host.path_join_posix modules_example
    (Num 1) (Ok other_processes) state_known5
  = ([setToolStopped tool_path_example], None).
Proof. vm_compute. reflexivity. Qed.

(** ** Claims about the decision procedure *)

(** C4, as stated, fails: the known pid 5 is still in the process table,
    but no process carries the tool's executable name any more (the pid
    now belongs to [other.exe]); the test for "nothing with a matching
    exe name is running" comes first and the check dispatches
    [setToolStopped] for the path. *)
Lemma steady_state_counterexample :
  ~ (forall (processes : list (option IProcessInfo))
            (byPid : gmap number IProcessInfo) (state : IState)
            (P : string) (k : IRunningTool),
        Tracker.reduce_byPid processes = Ok byPid ->
        toolsRunning state !! Host.makeExeId_spec P = Some k ->
        is_Some (byPid !! pid k) ->
        forall a,
          In a (fst (Tracker.doCheck Host.makeExeId_spec Host.path_join_posix
                       modules_example (Num 1) (Ok processes) state)) ->
          action_path a <> P).
Proof.
  intros H.
  apply (H other_processes other_byPid state_known5 tool_path_example
           (mkRunningTool (Num 5) true)
           ltac:(vm_compute; reflexivity) ltac:(vm_compute; reflexivity)
           ltac:(vm_compute; eexists; reflexivity)
           (setToolStopped tool_path_example)).
  - vm_compute. left. reflexivity.
  - reflexivity.
Qed.

(** C4, amended.  If the known-running state has an entry for the path
    [P] whose pid is present in [byPid], and some process of the snapshot
    carries the executable name of [P], then every call of [update] for
    [P] dispatches nothing and the check emits no transition for [P]. *)
Theorem steady_state_no_transition
    (makeExeId : string -> string) (path_join : list string -> string)
    (GetModuleList : number -> list ModuleEntry.t) (vortexPid : number)
    (processes : list (option IProcessInfo))
    (byPid : gmap number IProcessInfo)
    (byName : gmap string (list IProcessInfo))
    (state : IState) (P : string) (k : IRunningTool) (p : IProcessInfo) :
  Tracker.reduce_byPid processes = Ok byPid ->
  Tracker.reduce_byName processes = Ok byName ->
  toolsRunning state !! makeExeId P = Some k ->
  is_Some (byPid !! pid k) ->
  In (Some p) processes ->
  toLowerCase (exeFile p) = makeExeId P ->
  (forall excl det,
      Tracker.update makeExeId GetModuleList vortexPid byPid byName state
        P excl det = [])
  /\ (forall a,
        In a (fst (Tracker.doCheck makeExeId path_join GetModuleList vortexPid
                     (Ok processes) state)) ->
        action_path a <> P).
Proof.
  intros HbyPid HbyName Hknown Hpid Hp Hname.
  assert (Hrunning : is_Some (byName !! makeExeId P)).
  { apply (reduce_byName_keys processes byName _ HbyName).
    exists p. split; assumption. }
  destruct Hrunning as [running Hrunning].
  assert (Hupdate : forall excl det,
             Tracker.update makeExeId GetModuleList vortexPid byPid byName
               state P excl det = []).
  { intros excl det. eapply update_still_running; eassumption. }
  split; [exact Hupdate|].
  intros a Ha HP.
  apply doCheck_actions in Ha.
  destruct Ha as (processes' & byPid' & byName' & excl & det
                  & Heq & HbyPid' & HbyName' & Hin).
  injection Heq as <-.
  rewrite HbyPid in HbyPid'. injection HbyPid' as <-.
  rewrite HbyName in HbyName'. injection HbyName' as <-.
  rewrite HP, Hupdate in Hin. destruct Hin.
Qed.

Lemma steady_state_no_transition_witness :
  Tracker.update Host.makeExeId_spec modules_example (Num 1)
    tool_byPid tool_byName state_known100 tool_path_example true true = []
  /\ ~ In (setToolStopped tool_path_example)
         (fst (Tracker.doCheck Host.makeExeId_spec Host.path_join_posix
                 modules_example (Num 1) (Ok tool_processes) state_known100)).
Proof.
  pose proof (steady_state_no_transition Host.makeExeId_spec
                Host.path_join_posix modules_example (Num 1)
                tool_processes tool_byPid tool_byName state_known100
                tool_path_example (mkRunningTool (Num 100) true) tool_p100
                ltac:(vm_compute; reflexivity) ltac:(vm_compute; reflexivity)
                ltac:(vm_compute; reflexivity)
                ltac:(vm_compute; eexists; reflexivity)
                ltac:(right; left; reflexivity)
                ltac:(vm_compute; reflexivity)) as [Hupdate Hcheck].
  split.
  - apply Hupdate.
  - intros Hin. exact (Hcheck _ Hin eq_refl).
Defined.

(** One call of [update]: if the known-running state has an entry for [P] whose pid is
    absent from [byPid], and no process carrying the executable name of
    [P] is confirmed as a match (none has a main module whose path equals
    [P] up to case), then [update] for [P] dispatches exactly one action,
    [setToolStopped P], and no [setToolPid]. *)
Lemma update_vanished_stops
    (makeExeId : string -> string)
    (GetModuleList : number -> list ModuleEntry.t) (vortexPid : number)
    (byPid : gmap number IProcessInfo)
    (byName : gmap string (list IProcessInfo))
    (state : IState) (P : string) (excl det : bool) (k : IRunningTool) :
  toolsRunning state !! makeExeId P = Some k ->
  byPid !! pid k = None ->
  (forall running c,
      byName !! makeExeId P = Some running -> In c running ->
      Tracker.confirmed GetModuleList P c = false) ->
  Tracker.update makeExeId GetModuleList vortexPid byPid byName state
    P excl det = [setToolStopped P].
Proof.
  intros Hknown Hgone Hnone.
  destruct (byName !! makeExeId P) as [running|] eqn:Hrunning.
  - rewrite (update_find _ _ _ _ _ _ _ _ _ running Hrunning)
      by (rewrite Hknown; exact Hgone).
    rewrite find_all_false.
    + rewrite Hknown. reflexivity.
    + intros c Hc. apply (Hnone running c eq_refl).
      eapply candidates_incl. exact Hc.
  - rewrite update_no_process by exact Hrunning.
    rewrite Hknown. reflexivity.
Qed.

Lemma update_vanished_stops_example :
  Tracker.update Host.makeExeId_spec modules_example (Num 1)
    unconfirmed_byPid unconfirmed_byName state_known5
    tool_path_example false false
  = [setToolStopped tool_path_example].
Proof.
  apply (update_vanished_stops Host.makeExeId_spec
           modules_example (Num 1) unconfirmed_byPid unconfirmed_byName
           state_known5 tool_path_example false false
           (mkRunningTool (Num 5) true)).
  - vm_compute. reflexivity.
  - vm_compute. reflexivity.
  - intros running c Hrunning Hc.
    assert (Heq : running = [tool_p300; tool_p100]).
    { vm_compute in Hrunning. injection Hrunning as <-. reflexivity. }
    subst running.
    destruct Hc as [<-|[<-|[]]]; vm_compute; reflexivity.
Defined.

(** C6.  For a target that does not allow detached matches
    ([considerDetached = false]): if every process carrying the target's
    executable name fails the ancestry test rooted at the monitor's own
    pid, then [update] dispatches no [setToolPid], whatever the module
    lists say. *)
Theorem no_child_no_start
    (makeExeId : string -> string)
    (GetModuleList : number -> list ModuleEntry.t) (vortexPid : number)
    (byPid : gmap number IProcessInfo)
    (byName : gmap string (list IProcessInfo))
    (state : IState) (P : string) (excl : bool) :
  (forall running c,
      byName !! makeExeId P = Some running -> In c running ->
      Tracker.isChildProcess vortexPid byPid (Some c) ∅ = false) ->
  forall a,
    In a (Tracker.update makeExeId GetModuleList vortexPid byPid byName state
            P excl false) ->
    is_started a = false.
Proof.
  intros Hfail a.
  unfold Tracker.update.
  destruct (byName !! makeExeId P) as [running|] eqn:Hrunning.
  - assert (Hcands : Tracker.candidates_of vortexPid byPid false running = []).
    { unfold Tracker.candidates_of.
      assert (Hall : forall c, In c running ->
                 Tracker.isChildProcess vortexPid byPid (Some c) ∅ = false)
        by (intros c; apply (Hfail running c eq_refl)).
      clear Hfail Hrunning.
      induction running as [|c running IH]; [reflexivity|].
      cbn [List.filter]. rewrite (Hall c (or_introl eq_refl)).
      apply IH. intros c' Hc'. apply Hall. right. exact Hc'. }
    rewrite Hcands. cbn [List.find].
    destruct (bool_decide (is_Some (toolsRunning state !! makeExeId P)));
      [destruct (bool_decide _)|]; cbn;
      intros H; repeat (destruct H as [<-|H]; [reflexivity|]); destruct H.
  - destruct (bool_decide _); cbn;
      intros H; repeat (destruct H as [<-|H]; [reflexivity|]); destruct H.
Qed.

Lemma no_child_no_start_witness :
  is_started (setToolStopped tool_path_example) = false
  /\ Tracker.update Host.makeExeId_spec modules_example (Num 1)
       stray_byPid stray_byName state_known5 tool_path_example false false
     = [setToolStopped tool_path_example]
  /\ Tracker.update Host.makeExeId_spec modules_example (Num 1)
       stray_byPid stray_byName state_known5 tool_path_example false true
     = [setToolPid tool_path_example (Num 200) false].
Proof.
  split; [|split; vm_compute; reflexivity].
  apply (no_child_no_start Host.makeExeId_spec modules_example (Num 1)
           stray_byPid stray_byName state_known5 tool_path_example false).
  - intros running c Hrunning Hc.
    assert (Heq : running = [stray_p100; stray_p200]).
    { vm_compute in Hrunning. injection Hrunning as <-. reflexivity. }
    subst running.
    destruct Hc as [<-|[<-|[]]]; vm_compute; reflexivity.
  - vm_compute. left. reflexivity.
Defined.

(** One call of [update]: past the steady-state test it selects the first of the
    filtered candidates whose main module path (the first entry of the
    module list of its pid) equals the target's path up to case, and
    dispatches [setToolPid] with that candidate's pid; a candidate whose
    module list is empty is never confirmed, hence never selected. *)
Lemma update_first_confirmed
    (makeExeId : string -> string)
    (GetModuleList : number -> list ModuleEntry.t) (vortexPid : number)
    (byPid : gmap number IProcessInfo)
    (byName : gmap string (list IProcessInfo))
    (state : IState) (P : string) (excl det : bool)
    (running before after : list IProcessInfo) (m : IProcessInfo)
    (main : ModuleEntry.t) (others : list ModuleEntry.t) :
  byName !! makeExeId P = Some running ->
  toolsRunning state !! makeExeId P ≫= (fun k => byPid !! pid k) = None ->
  Tracker.candidates_of vortexPid byPid det running = before ++ m :: after ->
  (forall c main' others',
      In c before -> GetModuleList (processID c) = main' :: others' ->
      toLowerCase (ModuleEntry.exePath main') <> toLowerCase P) ->
  GetModuleList (processID m) = main :: others ->
  toLowerCase (ModuleEntry.exePath main) = toLowerCase P ->
  Tracker.update makeExeId GetModuleList vortexPid byPid byName state
    P excl det = [setToolPid P (processID m) excl]
  /\ (forall c, In c (before ++ m :: after) ->
        GetModuleList (processID c) = [] ->
        Tracker.confirmed GetModuleList P c = false /\ c <> m).
Proof.
  intros Hrunning Hnot_steady Hcands Hbefore Hmodules Hmain.
  split.
  - rewrite (update_find _ _ _ _ _ _ _ _ _ running Hrunning Hnot_steady).
    rewrite Hcands, (find_first (Tracker.confirmed GetModuleList P)).
    + reflexivity.
    + intros c Hc.
      destruct (Tracker.confirmed GetModuleList P c) eqn:Hconf; [|reflexivity].
      apply confirmed_spec in Hconf.
      destruct Hconf as (main' & others' & Hlist & Heq).
      destruct (Hbefore c main' others' Hc Hlist Heq).
    + apply confirmed_spec. exists main, others. split; assumption.
  - intros c _ Hempty. split.
    + apply confirmed_empty_modules. exact Hempty.
    + intros ->. rewrite Hmodules in Hempty. discriminate.
Qed.

Lemma update_first_confirmed_example :
  Tracker.update Host.makeExeId_spec modules_example (Num 1)
    tool_byPid tool_byName state_fresh tool_path_example false false
  = [setToolPid tool_path_example (Num 200) false]
  /\ Tracker.confirmed modules_example tool_path_example tool_p300 = false.
Proof.
  pose proof (update_first_confirmed Host.makeExeId_spec
                modules_example (Num 1) tool_byPid tool_byName state_fresh
                tool_path_example false false
                [tool_p300; tool_p100; tool_p200] [tool_p300; tool_p100] []
                tool_p200
                (ModuleEntry.mk "/Configured/Path/Tool.EXE")
                [ModuleEntry.mk "/lib/libc.so"]
                ltac:(vm_compute; reflexivity) ltac:(vm_compute; reflexivity)
                ltac:(vm_compute; reflexivity)) as H.
  assert (Hbefore : forall c main' others',
             In c [tool_p300; tool_p100] ->
             modules_example (processID c) = main' :: others' ->
             toLowerCase (ModuleEntry.exePath main')
             <> toLowerCase tool_path_example).
  { intros c main' others' [<-|[<-|[]]] Hlist; vm_compute in Hlist.
    - discriminate.
    - injection Hlist as <- <-. vm_compute. discriminate. }
  destruct (H Hbefore ltac:(reflexivity) ltac:(vm_compute; reflexivity))
    as [Hupdate Hempty].
  split; [exact Hupdate|].
  apply (Hempty tool_p300); [left; reflexivity | reflexivity].
Defined.

(** One call of [update]: if the known-running state has an entry for [P] whose pid is
    absent from [byPid], and one of the candidates left by the ancestry
    filter is confirmed as a match, then [update] dispatches exactly one
    action: [setToolPid] for [P] with the pid of the first confirmed
    candidate and the target's [exclusive] flag, and no [setToolStopped]. *)
Lemma update_restart_started
    (makeExeId : string -> string)
    (GetModuleList : number -> list ModuleEntry.t) (vortexPid : number)
    (byPid : gmap number IProcessInfo)
    (byName : gmap string (list IProcessInfo))
    (state : IState) (P : string) (excl det : bool)
    (k : IRunningTool) (running : list IProcessInfo) (c : IProcessInfo) :
  toolsRunning state !! makeExeId P = Some k ->
  byPid !! pid k = None ->
  byName !! makeExeId P = Some running ->
  In c (Tracker.candidates_of vortexPid byPid det running) ->
  Tracker.confirmed GetModuleList P c = true ->
  exists m,
    List.find (Tracker.confirmed GetModuleList P)
      (Tracker.candidates_of vortexPid byPid det running) = Some m
    /\ In m running
    /\ Tracker.confirmed GetModuleList P m = true
    /\ Tracker.update makeExeId GetModuleList vortexPid byPid byName state
         P excl det = [setToolPid P (processID m) excl].
Proof.
  intros Hknown Hgone Hrunning Hc Hconf.
  rewrite (update_find _ _ _ _ _ _ _ _ _ running Hrunning)
    by (rewrite Hknown; exact Hgone).
  destruct (List.find (Tracker.confirmed GetModuleList P)
              (Tracker.candidates_of vortexPid byPid det running))
    as [m|] eqn:Hfind.
  - exists m. pose proof (List.find_some _ _ Hfind) as [Hm Hmconf].
    split; [reflexivity|].
    split; [eapply candidates_incl; exact Hm|].
    split; [exact Hmconf | reflexivity].
  - pose proof (List.find_none _ _ Hfind c Hc) as Hnot.
    rewrite Hconf in Hnot. discriminate.
Qed.

Lemma update_restart_started_example :
  exists m,
    List.find (Tracker.confirmed modules_example tool_path_example)
      (Tracker.candidates_of (Num 1) tool_byPid false
         [tool_p300; tool_p100; tool_p200]) = Some m
    /\ In m [tool_p300; tool_p100; tool_p200]
    /\ Tracker.confirmed modules_example tool_path_example m = true
    /\ Tracker.update Host.makeExeId_spec modules_example (Num 1)
         tool_byPid tool_byName state_known5 tool_path_example false false
       = [setToolPid tool_path_example (processID m) false].
Proof.
  apply (update_restart_started Host.makeExeId_spec modules_example
           (Num 1) tool_byPid tool_byName state_known5 tool_path_example
           false false (mkRunningTool (Num 5) true)
           [tool_p300; tool_p100; tool_p200] tool_p200).
  - vm_compute. reflexivity.
  - vm_compute. reflexivity.
  - vm_compute. reflexivity.
  - vm_compute. right. right. left. reflexivity.
  - vm_compute. reflexivity.
Defined.

Example restart_example :
  Tracker.update Host.makeExeId_spec modules_example (Num 1)
    tool_byPid tool_byName state_known5 tool_path_example false false
  = [setToolPid tool_path_example (Num 200) false].
Proof. vm_compute. reflexivity. Qed.

(** C9.  If the executable name of the active game or the path of its
    discovery is unavailable, the check dispatches nothing at all,
    whatever the process table and the known-running state hold. *)
Theorem no_game_no_transitions
    (makeExeId : string -> string) (path_join : list string -> string)
    (GetModuleList : number -> list ModuleEntry.t) (vortexPid : number)
    (getProcessList : result (list (option IProcessInfo)))
    (state : IState) :
  Tracker.gameExe state = None \/ Tracker.gamePath state = None ->
  fst (Tracker.doCheck makeExeId path_join GetModuleList vortexPid
         getProcessList state) = [].
Proof. apply doCheck_no_game. Qed.

Lemma no_game_no_transitions_witness :
  toolsRunning state_no_path !! Host.makeExeId_spec tool_path_example
  = Some (mkRunningTool (Num 5) true)
  /\ tool_byPid !! Num 5 = None
  /\ fst (Tracker.doCheck Host.makeExeId_spec Host.path_join_posix
            modules_example (Num 1) (Ok tool_processes) state_no_path) = [].
Proof.
  split; [vm_compute; reflexivity|].
  split; [vm_compute; reflexivity|].
  apply (no_game_no_transitions Host.makeExeId_spec Host.path_join_posix
           modules_example (Num 1) (Ok tool_processes) state_no_path).
  right. reflexivity.
Defined.

(** ** The scheduler *)

Section SchedulerProps.
Import ProcessMonitor.

Context {Env : Type}.
Local Abbreviation W := (@World Env).
Variable doCheck : W -> W * option Error.

Lemma start_when_active (w : W) : mActive w = true -> start w = w.
Proof. unfold start. intros ->. destruct (mImpl w); reflexivity. Qed.

Lemma end_when_idle (w : W) : mTimer w = None -> end_ w = w.
Proof. unfold end_. intros ->. reflexivity. Qed.

Lemma end_idempotent (w : W) : end_ (end_ w) = end_ w.
Proof.
  destruct (mTimer w) as [t|] eqn:Ht.
  - apply end_when_idle. unfold end_. rewrite Ht. reflexivity.
  - rewrite (end_when_idle w Ht). apply end_when_idle, Ht.
Qed.

Lemma check_when_inactive (w : W) : mActive w = false -> check doCheck w = (w, None).
Proof. unfold check. intros ->. reflexivity. Qed.

Lemma clearTimeout_own (w : W) t :
  single_pending w -> mTimer w = Some t -> timers (clearTimeout t w) = [].
Proof.
  intros (_ & Hown & _) Ht. cbn.
  assert (Hall : forall e, In e (timers w) -> fst e = t).
  { intros [t' d] He. apply Hown in He. cbn. congruence. }
  clear Hown.
  induction (timers w) as [|e l IH]; [reflexivity|].
  cbn. rewrite (Hall e (or_introl eq_refl)), Nat.eqb_refl. cbn.
  apply IH. intros e' He'. apply Hall. right. exact He'.
Qed.

Lemma no_timer_no_pending (w : W) :
  single_pending w -> mTimer w = None -> timers w = [].
Proof.
  intros (_ & Hown & _) Ht.
  destruct (timers w) as [|[t d] l]; [reflexivity|].
  specialize (Hown t d (or_introl eq_refl)). congruence.
Qed.

Lemma single_pending_no_timers (w : W) :
  timers w = [] -> idle_consistent w -> single_pending w.
Proof.
  intros Hts Hidle. unfold single_pending. rewrite Hts.
  split; [cbn; lia|]. split; [intros t d []|exact Hidle].
Qed.

Lemma single_pending_armed (w : W) delay :
  timers w = [] ->
  single_pending (set_mTimer (Some (fst (setTimeout delay w)))
                    (snd (setTimeout delay w))).
Proof.
  intros Hts. unfold single_pending, idle_consistent. cbn. rewrite Hts. cbn.
  split; [lia|]. split; [|discriminate].
  intros t d [H|[]]. congruence.
Qed.

Lemma start_single_pending (w : W) : single_pending w -> single_pending (start w).
Proof.
  intros Hw. unfold start.
  destruct (mImpl w); [|exact Hw].
  destruct (mActive w); [exact Hw|].
  assert (Hts : timers (match mTimer w with
                        | Some t => clearTimeout t w
                        | None => w
                        end) = []).
  { destruct (mTimer w) as [t|] eqn:Ht.
    - apply clearTimeout_own; assumption.
    - apply no_timer_no_pending; assumption. }
  set (w1 := match mTimer w with Some t => clearTimeout t w | None => w end)
    in *.
  unfold single_pending, idle_consistent.
  destruct (remote w1); cbn; rewrite Hts; cbn;
    (split; [lia|]; split; [|discriminate]);
    intros t d [H|[]]; congruence.
Qed.

Lemma end_clears (w : W) :
  single_pending w -> timers (end_ w) = [] /\ mActive (end_ w) = false.
Proof.
  intros Hw. unfold end_.
  destruct (mTimer w) as [t|] eqn:Ht.
  - cbn. split; [|reflexivity].
    exact (clearTimeout_own w t Hw Ht).
  - split; [apply no_timer_no_pending; assumption|].
    destruct Hw as (_ & _ & Hidle). apply Hidle, Ht.
Qed.

Lemma end_single_pending (w : W) : single_pending w -> single_pending (end_ w).
Proof.
  intros Hw. apply single_pending_no_timers.
  - apply end_clears, Hw.
  - intros _. apply end_clears, Hw.
Qed.

Lemma check_single_pending (w : W) :
  doCheck_frame doCheck ->
  timers w = [] -> idle_consistent w ->
  single_pending (fst (check doCheck w)).
Proof.
  intros Hframe Hts Hidle. unfold check.
  destruct (mActive w); cbn [negb];
    [|apply single_pending_no_timers; assumption].
  destruct (window_absent_or_focused w).
  - destruct (Hframe w) as [Hts1 Hidle1].
    destruct (doCheck w) as [w1 err]. cbn [fst] in *.
    rewrite Hts in Hts1. specialize (Hidle1 Hidle).
    destruct err as [e|];
      [apply single_pending_no_timers; assumption|].
    destruct (mActive w1) eqn:Hactive;
      [|apply single_pending_no_timers; assumption].
    apply (single_pending_armed w1 2000 Hts1).
  - apply (single_pending_armed w 5000 Hts).
Qed.

Lemma fire_single_pending (w : W) t d :
  doCheck_frame doCheck ->
  single_pending w -> In (t, d) (timers w) ->
  single_pending (fst (fire doCheck t w)).
Proof.
  intros Hframe Hw Hin. unfold fire.
  apply check_single_pending; [exact Hframe| |].
  - apply clearTimeout_own; [exact Hw|].
    destruct Hw as (_ & Hown & _). exact (Hown t d Hin).
  - destruct Hw as (_ & _ & Hidle). exact Hidle.
Qed.

Lemma reachable_single_pending (w : W) :
  doCheck_frame doCheck -> reachable doCheck w -> single_pending w.
Proof.
  intros Hframe. induction 1 as [platform rem focus e|w w' _ IH Hstep].
  - apply single_pending_no_timers; [reflexivity|].
    intros _. reflexivity.
  - destruct Hstep as [w|w|w t d Hin|w b].
    + apply start_single_pending, IH.
    + apply end_single_pending, IH.
    + eapply fire_single_pending; eassumption.
    + exact IH.
Qed.

(** After [start] on an idle, supported monitor exactly one timer is
    pending, armed with the baseline period. *)
Lemma start_arms_one (w : W) :
  single_pending w -> mActive w = false -> mImpl w <> None ->
  exists t, timers (start w) = [(t, 2000)]
            /\ mTimer (start w) = Some t /\ mActive (start w) = true.
Proof.
  intros Hw Hactive Himpl. unfold start.
  destruct (mImpl w); [|congruence]. rewrite Hactive.
  assert (Hts : timers (match mTimer w with
                        | Some t => clearTimeout t w
                        | None => w
                        end) = []).
  { destruct (mTimer w) as [t|] eqn:Ht.
    - apply clearTimeout_own; assumption.
    - apply no_timer_no_pending; assumption. }
  set (w1 := match mTimer w with Some t => clearTimeout t w | None => w end)
    in *.
  exists (nextTimer w1).
  destruct (remote w1); cbn; rewrite Hts; repeat split; reflexivity.
Qed.

End SchedulerProps.

(** ** Examples of the enumerator and of the scheduler *)

Example getProcessList_example :
  ProcessMonitorImplProcfs.getProcessList Host.path_join_posix fs_example
  = Ok [Some vortex_p1; Some tool_p100; Some tool_p200; Some tool_p300].
Proof. vm_compute. reflexivity. Qed.

Example getProcessInfo_parentheses :
  ProcessMonitorImplProcfs.getProcessInfo
    (fun _ => "stat"%string)
    (mkFileSystem readdir_example
       (fun _ => Ok "4242 (my (odd) name) S 17 4242 4242 0"%string))
    "4242"
  = Ok (Some (mkProcessInfo (Num 4242) (Num 17) "my (odd) name")).
Proof. vm_compute. reflexivity. Qed.

Example tick_focused :
  let w := ProcessMonitor.start (world_new true fs_example) in
  let w' := fst (ProcessMonitor.fire doCheck_example 0 w) in
  ProcessMonitor.timers w = [(0%nat, 2000)]
  /\ ProcessMonitor.timers w' = [(1%nat, 2000)]
  /\ Host.enumerations (ProcessMonitor.env w') = 1%nat
  /\ Host.dispatched (ProcessMonitor.env w')
     = [setToolPid tool_path_example (Num 200) true].
Proof. vm_compute. repeat split; reflexivity. Qed.

Example tick_unfocused :
  let w := ProcessMonitor.start (world_new false fs_example) in
  let w' := fst (ProcessMonitor.fire doCheck_example 0 w) in
  ProcessMonitor.timers w' = [(1%nat, 5000)]
  /\ Host.enumerations (ProcessMonitor.env w') = 0%nat
  /\ Host.dispatched (ProcessMonitor.env w') = [].
Proof. vm_compute. repeat split; reflexivity. Qed.

(** ** The procfs enumerator *)

Lemma mapM_Ok_In {A B} (f : A -> result B) l ys x :
  mapM f l = Ok ys -> In x l -> exists y, f x = Ok y /\ In y ys.
Proof.
  revert ys. induction l as [|a l IH]; intros ys H Hx; [destruct Hx|].
  cbn in H.
  destruct (f a) as [y|e] eqn:Hfa; [|discriminate].
  destruct (mapM f l) as [ys'|e]; [|discriminate].
  cbn in H. injection H as <-.
  destruct Hx as [->|Hx].
  - exists y. split; [exact Hfa | left; reflexivity].
  - destruct (IH ys' eq_refl Hx) as (y' & Hy' & Hin).
    exists y'. split; [exact Hy' | right; exact Hin].
Qed.

Lemma mapM_Ok_length {A B} (f : A -> result B) l ys :
  mapM f l = Ok ys -> length ys = length l.
Proof.
  revert ys. induction l as [|a l IH]; intros ys H; cbn in H.
  - injection H as <-. reflexivity.
  - destruct (f a); [|discriminate].
    destruct (mapM f l) as [ys'|]; [|discriminate].
    cbn in H. injection H as <-. cbn. f_equal. apply IH. reflexivity.
Qed.

Lemma mapM_Throw {A B} (f : A -> result B) l x e :
  In x l -> f x = Throw e -> exists e', mapM f l = Throw e'.
Proof.
  induction l as [|a l IH]; intros Hx Hfx; [destruct Hx|].
  cbn. destruct (f a) as [y|e0] eqn:Hfa; [|eexists; reflexivity].
  destruct Hx as [->|Hx]; [congruence|].
  destruct (IH Hx Hfx) as [e' ->]. eexists. reflexivity.
Qed.

Lemma reduce_byPid_null_from processes (m : gmap number IProcessInfo) :
  In None processes ->
  foldl
    (fun acc proc =>
       bind acc (fun prev =>
         match proc with
         | None => Throw TypeError
         | Some p => Ok (<[processID p := p]> prev)
         end))
    (Ok m) processes = Throw TypeError.
Proof.
  revert m. induction processes as [|x l IH]; intros m H; [destruct H|].
  cbn. destruct x as [p|].
  - destruct H as [H|H]; [discriminate|]. apply IH, H.
  - apply (foldl_bind_Throw
             (fun (prev : gmap number IProcessInfo)
                  (proc : option IProcessInfo) =>
                match proc with
                | None => Throw TypeError
                | Some p => Ok (<[processID p := p]> prev)
                end)).
Qed.

(** A [null] in the process list ends the check with a [TypeError]
    before anything is dispatched. *)
Lemma doCheck_null_entry makeExeId path_join GetModuleList vortexPid
    processes state :
  In None processes ->
  Tracker.doCheck makeExeId path_join GetModuleList vortexPid
    (Ok processes) state = ([], Some TypeError).
Proof.
  intros H. unfold Tracker.doCheck, Tracker.reduce_byPid.
  rewrite (reduce_byPid_null_from processes ∅ H). reflexivity.
Qed.

Section ProcfsProps.

Variable path_join : list string -> string.
Variable fs : FileSystem.

Local Abbreviation getProcessInfo :=
  (ProcessMonitorImplProcfs.getProcessInfo path_join fs).
Local Abbreviation getProcessList :=
  (ProcessMonitorImplProcfs.getProcessList path_join fs).
Local Abbreviation stat_of pid :=
  (path_join [ProcessMonitorImplProcfs.proc_path; pid; "stat"%string]).

Lemma getProcessInfo_vanished pid :
  readFileSync fs (stat_of pid) = Throw (SystemError "ENOENT") ->
  getProcessInfo pid = Ok None.
Proof.
  unfold ProcessMonitorImplProcfs.getProcessInfo. intros ->. reflexivity.
Qed.

Lemma getProcessInfo_other_error pid e :
  readFileSync fs (stat_of pid) = Throw e ->
  e <> SystemError "ENOENT" ->
  getProcessInfo pid = Throw e.
Proof.
  unfold ProcessMonitorImplProcfs.getProcessInfo. intros -> Hne.
  destruct e as [code|]; [|reflexivity].
  destruct (String.eqb code "ENOENT") eqn:Hcode; [|reflexivity].
  apply String.eqb_eq in Hcode. congruence.
Qed.

(** Any other failure of a read, or of the listing, fails the enumeration. *)
Lemma getProcessList_other_error entries pid e :
  readdirSync fs ProcessMonitorImplProcfs.proc_path = Ok entries ->
  In pid entries -> ProcessMonitorImplProcfs.isOnlyDigits pid = true ->
  readFileSync fs (stat_of pid) = Throw e ->
  e <> SystemError "ENOENT" ->
  exists e', getProcessList = Throw e'.
Proof.
  intros Hdir Hin Hdigits Hread Hne.
  unfold ProcessMonitorImplProcfs.getProcessList. rewrite Hdir. cbn [bind].
  apply (mapM_Throw _ _ pid e).
  - apply filter_In. split; assumption.
  - apply getProcessInfo_other_error; assumption.
Qed.

Lemma getProcessList_readdir_error e :
  readdirSync fs ProcessMonitorImplProcfs.proc_path = Throw e ->
  getProcessList = Throw e.
Proof.
  unfold ProcessMonitorImplProcfs.getProcessList. intros ->. reflexivity.
Qed.

End ProcfsProps.

(** C2 (the code departs from the claim).  When the status file of a
    listed pid is gone ([ENOENT]) and the enumeration succeeds, the
    returned list is not shorter: it has one slot per numeric entry and a
    [null] in the slot of the vanished process; the check that consumes
    the list then ends with a [TypeError] and dispatches nothing. *)
Theorem getProcessList_keeps_null_entry
    (path_join : list string -> string) (fs : FileSystem)
    (entries : list string) (pid : string)
    (processes : list (option IProcessInfo))
    (makeExeId : string -> string)
    (GetModuleList : number -> list ModuleEntry.t) (vortexPid : number)
    (state : IState) :
  readdirSync fs ProcessMonitorImplProcfs.proc_path = Ok entries ->
  In pid entries ->
  ProcessMonitorImplProcfs.isOnlyDigits pid = true ->
  readFileSync fs
    (path_join [ProcessMonitorImplProcfs.proc_path; pid; "stat"%string])
  = Throw (SystemError "ENOENT") ->
  ProcessMonitorImplProcfs.getProcessList path_join fs = Ok processes ->
  In None processes
  /\ length processes
     = length (List.filter ProcessMonitorImplProcfs.isOnlyDigits entries)
  /\ Tracker.doCheck makeExeId path_join GetModuleList vortexPid
       (Ok processes) state = ([], Some TypeError).
Proof.
  intros Hdir Hin Hdigits Hread Hlist.
  unfold ProcessMonitorImplProcfs.getProcessList in Hlist.
  rewrite Hdir in Hlist. cbn [bind] in Hlist.
  assert (Hnull : In None processes).
  { destruct (mapM_Ok_In _ _ _ pid Hlist) as (y & Hy & Hyin).
    - apply filter_In. split; assumption.
    - rewrite (getProcessInfo_vanished path_join fs pid Hread) in Hy.
      injection Hy as <-. exact Hyin. }
  split; [exact Hnull|]. split.
  - apply (mapM_Ok_length _ _ _ Hlist).
  - apply doCheck_null_entry, Hnull.
Qed.

Lemma getProcessList_keeps_null_entry_witness :
  ProcessMonitorImplProcfs.getProcessList Host.path_join_posix fs_vanished
  = Ok [Some vortex_p1; Some tool_p100; Some tool_p200; None]
  /\ In None [Some vortex_p1; Some tool_p100; Some tool_p200; None]
  /\ Tracker.doCheck Host.makeExeId_spec Host.path_join_posix modules_example
       (Num 1) (Ok [Some vortex_p1; Some tool_p100; Some tool_p200; None])
       state_fresh = ([], Some TypeError).
Proof.
  split; [vm_compute; reflexivity|].
  pose proof (getProcessList_keeps_null_entry Host.path_join_posix fs_vanished
                ["1"; "100"; "self"; "200"; "300"; "uptime"]%string
                "300"%string
                [Some vortex_p1; Some tool_p100; Some tool_p200; None]
                Host.makeExeId_spec modules_example (Num 1) state_fresh
                ltac:(vm_compute; reflexivity)
                ltac:(right; right; right; right; left; reflexivity)
                ltac:(vm_compute; reflexivity)
                ltac:(vm_compute; reflexivity)
                ltac:(vm_compute; reflexivity)) as (Hnull & _ & Hcheck).
  split; [exact Hnull | exact Hcheck].
Defined.

Example getProcessList_denied :
  ProcessMonitorImplProcfs.getProcessList Host.path_join_posix fs_denied
  = Throw (SystemError "EACCES").
Proof. vm_compute. reflexivity. Qed.

(** ** Claims about the scheduler *)

(** The check of [Host.doCheck] touches only the environment. *)
Lemma host_doCheck_frame makeExeId path_join GetModuleList vortexPid :
  ProcessMonitor.doCheck_frame
    (Host.doCheck makeExeId path_join GetModuleList vortexPid).
Proof.
  intros w. unfold Host.doCheck.
  destruct (Tracker.doCheck _ _ _ _ _ _) as [actions err].
  split; [reflexivity|]. intros H. exact H.
Qed.

(** C3, as stated, fails: a tick that fires while the monitor is active
    but the window is not focused does not run the check (the process
    table is not enumerated); it only re-arms the timer. *)
Lemma tick_always_checks_counterexample :
  ~ (forall (w : @ProcessMonitor.World Host.Env) (t : nat) (d : Z),
        ProcessMonitor.reachable doCheck_example w ->
        In (t, d) (ProcessMonitor.timers w) ->
        ProcessMonitor.mActive w = true ->
        Host.enumerations
          (ProcessMonitor.env (fst (ProcessMonitor.fire doCheck_example t w)))
        = S (Host.enumerations (ProcessMonitor.env w))).
Proof.
  intros H.
  specialize (H (ProcessMonitor.start (world_new false fs_example)) 0%nat 2000).
  assert (Hreach : ProcessMonitor.reachable doCheck_example
                     (ProcessMonitor.start (world_new false fs_example))).
  { eapply ProcessMonitor.reachable_step.
    - apply ProcessMonitor.reachable_new.
    - apply ProcessMonitor.step_start. }
  specialize (H Hreach ltac:(vm_compute; left; reflexivity)
                ltac:(vm_compute; reflexivity)).
  vm_compute in H. discriminate.
Qed.

(** C3, amended.  On a tick that finds the monitor active: if the window
    is focused or no window is known, the check runs, and once it has
    returned without an exception and with the monitor still active the
    next tick is armed with the baseline period of 2000 ms; otherwise
    (a window is known and it is not focused) the check is skipped and
    the next tick is armed with 5000 ms, which is 2.5 times the baseline. *)
Theorem check_period {Env : Type}
    (doCheck : @ProcessMonitor.World Env -> @ProcessMonitor.World Env * option Error)
    (w : @ProcessMonitor.World Env) :
  ProcessMonitor.mActive w = true ->
  (ProcessMonitor.window_absent_or_focused w = true ->
   forall w1,
     doCheck w = (w1, None) -> ProcessMonitor.mActive w1 = true ->
     ProcessMonitor.check doCheck w
     = (ProcessMonitor.set_mTimer (Some (ProcessMonitor.nextTimer w1))
          (snd (ProcessMonitor.setTimeout 2000 w1)), None)
     /\ ProcessMonitor.timers (fst (ProcessMonitor.check doCheck w))
        = ProcessMonitor.timers w1 ++ [(ProcessMonitor.nextTimer w1, 2000)])
  /\ (ProcessMonitor.window_absent_or_focused w = false ->
      forall anyCheck,
        ProcessMonitor.check anyCheck w
        = (ProcessMonitor.set_mTimer (Some (ProcessMonitor.nextTimer w))
             (snd (ProcessMonitor.setTimeout 5000 w)), None)
        /\ ProcessMonitor.timers (fst (ProcessMonitor.check anyCheck w))
           = ProcessMonitor.timers w ++ [(ProcessMonitor.nextTimer w, 5000)])
  /\ 2 * 5000 = 5 * 2000.
Proof.
  intros Hactive. split; [|split; [|reflexivity]].
  - intros Hfocus w1 Hcheck Hactive1.
    unfold ProcessMonitor.check.
    rewrite Hactive, Hfocus, Hcheck, Hactive1. cbn. split; reflexivity.
  - intros Hfocus anyCheck.
    unfold ProcessMonitor.check.
    rewrite Hactive, Hfocus. cbn. split; reflexivity.
Qed.

Lemma check_period_witness :
  ProcessMonitor.timers
    (fst (ProcessMonitor.check doCheck_example
            (ProcessMonitor.clearTimeout 0
               (ProcessMonitor.start (world_new true fs_example)))))
  = [(1%nat, 2000)]
  /\ ProcessMonitor.timers
       (fst (ProcessMonitor.check doCheck_example
               (ProcessMonitor.clearTimeout 0
                  (ProcessMonitor.start (world_new false fs_example)))))
     = [(1%nat, 5000)].
Proof.
  split.
  - pose proof (check_period doCheck_example
                  (ProcessMonitor.clearTimeout 0
                     (ProcessMonitor.start (world_new true fs_example)))
                  ltac:(vm_compute; reflexivity)) as (Hfocused & _ & _).
    destruct (Hfocused ltac:(vm_compute; reflexivity)
                (fst (doCheck_example
                        (ProcessMonitor.clearTimeout 0
                           (ProcessMonitor.start (world_new true fs_example)))))
                ltac:(vm_compute; reflexivity)
                ltac:(vm_compute; reflexivity)) as [_ Htimers].
    rewrite Htimers. vm_compute. reflexivity.
  - pose proof (check_period doCheck_example
                  (ProcessMonitor.clearTimeout 0
                     (ProcessMonitor.start (world_new false fs_example)))
                  ltac:(vm_compute; reflexivity)) as (_ & Hunfocused & _).
    destruct (Hunfocused ltac:(vm_compute; reflexivity) doCheck_example)
      as [_ Htimers].
    rewrite Htimers. vm_compute. reflexivity.
Defined.

(** C8.  In every state the monitor can reach, at most one tick is
    pending.  [start] on an active monitor changes nothing; [start] on an
    idle one leaves exactly one pending timer, and so does a second
    [start] right after it.  [end] cancels the pending timer, and a second
    [end] changes nothing.  After [end] a tick that fires all the same
    does nothing. *)
Theorem scheduler_single_pending_tick {Env : Type}
    (doCheck : @ProcessMonitor.World Env -> @ProcessMonitor.World Env * option Error)
    (w : @ProcessMonitor.World Env) :
  ProcessMonitor.doCheck_frame doCheck ->
  ProcessMonitor.reachable doCheck w ->
  (length (ProcessMonitor.timers w) <= 1)%nat
  /\ (ProcessMonitor.mActive w = true -> ProcessMonitor.start w = w)
  /\ (ProcessMonitor.mActive w = false -> ProcessMonitor.mImpl w <> None ->
      length (ProcessMonitor.timers (ProcessMonitor.start w)) = 1%nat
      /\ ProcessMonitor.start (ProcessMonitor.start w) = ProcessMonitor.start w)
  /\ ProcessMonitor.timers (ProcessMonitor.end_ w) = []
  /\ ProcessMonitor.mActive (ProcessMonitor.end_ w) = false
  /\ ProcessMonitor.end_ (ProcessMonitor.end_ w) = ProcessMonitor.end_ w
  /\ ProcessMonitor.check doCheck (ProcessMonitor.end_ w)
     = (ProcessMonitor.end_ w, None).
Proof.
  intros Hframe Hreach.
  pose proof (reachable_single_pending doCheck w Hframe Hreach) as Hinv.
  pose proof (end_clears w Hinv) as [Hcleared Hidle].
  split; [apply Hinv|].
  split; [apply start_when_active|].
  split.
  { intros Hactive Himpl.
    destruct (start_arms_one w Hinv Hactive Himpl) as (t & Hts & _ & Hact).
    split; [rewrite Hts; reflexivity|].
    apply start_when_active, Hact. }
  split; [exact Hcleared|].
  split; [exact Hidle|].
  split; [apply end_idempotent|].
  apply check_when_inactive, Hidle.
Qed.

Lemma scheduler_single_pending_tick_witness :
  let w := ProcessMonitor.start (world_new true fs_example) in
  (length (ProcessMonitor.timers w) <= 1)%nat
  /\ ProcessMonitor.start w = w
  /\ ProcessMonitor.timers (ProcessMonitor.end_ w) = []
  /\ length (ProcessMonitor.timers (ProcessMonitor.start (ProcessMonitor.end_ w)))
     = 1%nat.
Proof.
  intros w.
  assert (Hreach : ProcessMonitor.reachable doCheck_example w).
  { eapply ProcessMonitor.reachable_step.
    - apply ProcessMonitor.reachable_new.
    - apply ProcessMonitor.step_start. }
  pose proof (scheduler_single_pending_tick doCheck_example w
                (host_doCheck_frame _ _ _ _) Hreach)
    as (Hone & Hstart & _ & Hend & _).
  pose proof (scheduler_single_pending_tick doCheck_example
                (ProcessMonitor.end_ w) (host_doCheck_frame _ _ _ _)
                (ProcessMonitor.reachable_step _ _ _ Hreach
                   (ProcessMonitor.step_end doCheck_example w)))
    as (_ & _ & Hrestart & _).
  split; [exact Hone|].
  split; [apply Hstart; vm_compute; reflexivity|].
  split; [exact Hend|].
  apply Hrestart; [vm_compute; reflexivity | vm_compute; discriminate].
Defined.

(** The frame condition of [scheduler_single_pending_tick] is needed: a
    check that re-enters [end] and [start] arms a timer of its own, and
    [check] arms another one when it returns. *)
Example reentrant_restart_arms_two :
  ~ ProcessMonitor.doCheck_frame doCheck_restarting
  /\ ProcessMonitor.timers
       (fst (ProcessMonitor.fire doCheck_restarting 0
               (ProcessMonitor.start (world_new true fs_example))))
     = [(1%nat, 2000); (2%nat, 2000)].
Proof.
  split; [|vm_compute; reflexivity].
  intros Hframe.
  destruct (Hframe (ProcessMonitor.clearTimeout 0
                      (ProcessMonitor.start (world_new true fs_example))))
    as [Htimers _].
  vm_compute in Htimers. discriminate.
Qed.

(* ===================================================================== *)
(** * Further properties of the code *)
(* ===================================================================== *)

(** ** The ancestry walk decides descent *)

Section Descent.

Variable vortexPid : number.
Variable byPid : gmap number IProcessInfo.

Local Abbreviation isChildProcess := (Tracker.isChildProcess vortexPid byPid).
Local Abbreviation ancestor := (Ancestry.ancestor byPid).
Local Abbreviation hits := (Ancestry.hits vortexPid byPid).

Lemma ancestor_S_last k p :
  ancestor (S k) p
  = ancestor k p ≫= (fun q => byPid !! parentProcessID q).
Proof.
  revert p. induction k as [|k IH]; intros p.
  - cbn. destruct (byPid !! parentProcessID p); reflexivity.
  - change (ancestor (S (S k)) p)
      with (byPid !! parentProcessID p ≫= ancestor (S k)).
    change (ancestor (S k) p)
      with (byPid !! parentProcessID p ≫= ancestor k).
    destruct (byPid !! parentProcessID p) as [q|]; [|reflexivity].
    cbn. apply IH.
Qed.

Lemma ancestor_add a b p :
  ancestor (a + b) p = ancestor a p ≫= ancestor b.
Proof.
  revert p. induction a as [|a IH]; intros p; [reflexivity|].
  change (ancestor (S a + b) p)
    with (byPid !! parentProcessID p ≫= ancestor (a + b)).
  change (ancestor (S a) p) with (byPid !! parentProcessID p ≫= ancestor a).
  destruct (byPid !! parentProcessID p) as [q|]; [|reflexivity].
  cbn. apply IH.
Qed.

Lemma isChildProcess_Some p visited :
  isChildProcess (Some p) visited
  = if strict_eq (parentProcessID p) (Num 0) then false
    else if bool_decide (parentProcessID p ∈ visited) then false
    else strict_eq (parentProcessID p) vortexPid
         || isChildProcess (byPid !! parentProcessID p)
              ({[parentProcessID p]} ∪ visited).
Proof. apply (isChildProcess_unfold vortexPid byPid (Some p) visited). Qed.

Lemma isChildProcess_None visited : isChildProcess None visited = false.
Proof. apply (isChildProcess_unfold vortexPid byPid None visited). Qed.

(** Soundness: the walk says yes only for descendants. *)
Lemma walk_sound fuel p visited :
  Tracker.isChildProcess_fuel vortexPid byPid fuel (Some p) visited = Some true ->
  Ancestry.is_descendant vortexPid byPid p.
Proof.
  revert p visited. induction fuel as [|fuel IH]; intros p visited H;
    [discriminate|].
  cbn [Tracker.isChildProcess_fuel] in H.
  destruct (strict_eq (parentProcessID p) (Num 0)) eqn:Hzero; [discriminate|].
  destruct (bool_decide (parentProcessID p ∈ visited)); [discriminate|].
  destruct (strict_eq (parentProcessID p) vortexPid) eqn:Hroot.
  - exists 0%nat. unfold Ancestry.hits. cbn. split; [exact Hroot|].
    intros i q Hi Hq. assert (i = 0%nat) as -> by lia.
    cbn in Hq. injection Hq as <-. exact Hzero.
  - destruct (byPid !! parentProcessID p) as [p1|] eqn:Hp1.
    + destruct (IH p1 _ H) as (k & Hhit & Hnz).
      exists (S k). split.
      * unfold Ancestry.hits in *. cbn. rewrite Hp1. exact Hhit.
      * intros i q Hi Hq. destruct i as [|i].
        -- cbn in Hq. injection Hq as <-. exact Hzero.
        -- cbn in Hq. rewrite Hp1 in Hq. apply (Hnz i q); [lia | exact Hq].
    + destruct fuel; [discriminate|]. discriminate.
Qed.

(** Completeness for the first hit on the chain. *)
Lemma walk_complete_first k :
  forall p visited,
    hits k p = true ->
    (forall j, (j < k)%nat -> hits j p = false) ->
    (forall i q, (i <= k)%nat -> ancestor i p = Some q ->
                 strict_eq (parentProcessID q) (Num 0) = false
                 /\ parentProcessID q ∉ visited) ->
    isChildProcess (Some p) visited = true.
Proof.
  induction k as [|k IH]; intros p visited Hhit Hfirst Hchain.
  - destruct (Hchain 0%nat p (le_n _) eq_refl) as [Hzero Hvis].
    rewrite isChildProcess_Some, Hzero.
    rewrite bool_decide_eq_false_2 by exact Hvis.
    unfold Ancestry.hits in Hhit. cbn in Hhit. rewrite Hhit. reflexivity.
  - destruct (Hchain 0%nat p (Nat.le_0_l _) eq_refl) as [Hzero Hvis].
    rewrite isChildProcess_Some, Hzero.
    rewrite bool_decide_eq_false_2 by exact Hvis.
    assert (Hroot : strict_eq (parentProcessID p) vortexPid = false).
    { specialize (Hfirst 0%nat (Nat.lt_0_succ _)).
      unfold Ancestry.hits in Hfirst. cbn in Hfirst. exact Hfirst. }
    rewrite Hroot. cbn [orb].
    destruct (byPid !! parentProcessID p) as [p1|] eqn:Hp1.
    2: { unfold Ancestry.hits in Hhit. cbn in Hhit. rewrite Hp1 in Hhit.
         discriminate. }
    assert (Hhit1 : hits k p1 = true).
    { unfold Ancestry.hits in *. cbn in Hhit. rewrite Hp1 in Hhit. exact Hhit. }
    assert (Hfirst1 : forall j, (j < k)%nat -> hits j p1 = false).
    { intros j Hj. specialize (Hfirst (S j) ltac:(lia)).
      unfold Ancestry.hits in *. cbn in Hfirst. rewrite Hp1 in Hfirst.
      exact Hfirst. }
    apply IH; [exact Hhit1 | exact Hfirst1 |].
    intros i q Hi Hq.
    destruct (Hchain (S i) q ltac:(lia)) as [Hqz Hqv].
    { cbn. rewrite Hp1. exact Hq. }
    split; [exact Hqz|].
    intros Hin. apply elem_of_union in Hin. destruct Hin as [Hin|Hin];
      [|exact (Hqv Hin)].
    apply elem_of_singleton in Hin.
    (* the chain would come back to [p1] and hit the root earlier *)
    assert (Hback : ancestor (S i) p1 = Some p1).
    { rewrite ancestor_S_last, Hq. cbn. rewrite Hin. exact Hp1. }
    destruct (decide (i = k)) as [->|Hne].
    + unfold Ancestry.hits in Hhit1. rewrite Hq in Hhit1.
      rewrite Hin in Hhit1. congruence.
    + assert (Hk : k = (S i + (k - S i))%nat) by lia.
      assert (Hearly : hits (k - S i) p1 = true).
      { unfold Ancestry.hits in *. rewrite Hk in Hhit1.
        rewrite ancestor_add, Hback in Hhit1. exact Hhit1. }
      rewrite Hfirst1 in Hearly by lia. discriminate.
Qed.

Lemma first_hit k p :
  hits k p = true ->
  exists k0, (k0 <= k)%nat /\ hits k0 p = true
             /\ forall j, (j < k0)%nat -> hits j p = false.
Proof.
  induction k as [k IH] using lt_wf_ind. intros Hhit.
  destruct (List.find (fun j => hits j p) (seq 0 k)) as [j|] eqn:Hfind.
  - apply List.find_some in Hfind. destruct Hfind as [Hj Hhitj].
    apply in_seq in Hj.
    destruct (IH j ltac:(lia) Hhitj) as (k0 & Hle & Hk0 & Hmin).
    exists k0. split; [lia|]. split; assumption.
  - exists k. split; [lia|]. split; [exact Hhit|].
    intros j Hj.
    apply (List.find_none _ _ Hfind j). apply in_seq. lia.
Qed.

End Descent.

(** X1.  Started from the empty visited set, the ancestry walk answers
    [true] exactly for the records that descend from the monitor: some
    record on the parent chain through [byPid] is a direct child of the
    monitor and no record of the chain up to it has parent pid 0. *)
Theorem isChildProcess_iff_descendant
    (vortexPid : number) (byPid : gmap number IProcessInfo) (p : IProcessInfo) :
  Tracker.isChildProcess vortexPid byPid (Some p) ∅ = true
  <-> Ancestry.is_descendant vortexPid byPid p.
Proof.
  split.
  - intros H.
    apply (walk_sound vortexPid byPid (Tracker.walk_bound byPid) p ∅).
    rewrite (walk_isChildProcess vortexPid byPid _ (Some p) ∅ (le_n _)).
    rewrite H. reflexivity.
  - intros (k & Hhit & Hnz).
    destruct (first_hit vortexPid byPid k p Hhit) as (k0 & Hle & Hk0 & Hmin).
    apply (walk_complete_first vortexPid byPid k0 p ∅ Hk0 Hmin).
    intros i q Hi Hq. split.
    + apply (Hnz i q); [lia | exact Hq].
    + apply not_elem_of_empty.
Qed.

(** ** The two indices of a snapshot *)

Lemma byPid_lookup_last (procs : list IProcessInfo) :
  exists byPid,
    Tracker.reduce_byPid (map Some procs) = Ok byPid
    /\ forall n,
         byPid !! n
         = List.find (fun p => bool_decide (processID p = n)) (rev procs).
Proof.
  unfold Tracker.reduce_byPid.
  induction procs as [|x procs IH] using rev_ind.
  - exists ∅. split; [reflexivity|]. intros n. apply lookup_empty.
  - destruct IH as (byPid & Hfold & Hlookup).
    exists (<[processID x := x]> byPid). split.
    + rewrite map_app, foldl_app, Hfold. reflexivity.
    + intros n. rewrite rev_app_distr. cbn.
      destruct (decide (processID x = n)) as [Heq|Hne].
      * rewrite bool_decide_eq_true_2 by exact Heq.
        rewrite Heq. apply lookup_insert_eq.
      * rewrite bool_decide_eq_false_2 by exact Hne.
        rewrite lookup_insert_ne by exact Hne. apply Hlookup.
Qed.

(** X2.  On a process list without [null] entries the pid index is built
    without an exception, and looking a pid up yields the last record of
    the list that carries this pid (later duplicates overwrite earlier
    ones); a pid no record carries is absent. *)
Theorem reduce_byPid_last_wins (procs : list IProcessInfo) :
  exists byPid,
    Tracker.reduce_byPid (map Some procs) = Ok byPid
    /\ forall n,
         byPid !! n
         = List.find (fun p => bool_decide (processID p = n)) (rev procs).
Proof.
  unfold Tracker.reduce_byPid.
  induction procs as [|x procs IH] using rev_ind.
  - exists ∅. split; [reflexivity|]. intros n. apply lookup_empty.
  - destruct IH as (byPid & Hfold & Hlookup).
    exists (<[processID x := x]> byPid). split.
    + rewrite map_app, foldl_app, Hfold. reflexivity.
    + intros n. rewrite rev_app_distr. cbn.
      destruct (decide (processID x = n)) as [Heq|Hne].
      * rewrite bool_decide_eq_true_2 by exact Heq.
        rewrite Heq. apply lookup_insert_eq.
      * rewrite bool_decide_eq_false_2 by exact Hne.
        rewrite lookup_insert_ne by exact Hne. apply Hlookup.
Qed.

Lemma byName_lookup_group (procs : list IProcessInfo) :
  exists byName,
    Tracker.reduce_byName (map Some procs) = Ok byName
    /\ forall key,
         byName !! key
         = match List.filter
                   (fun p => String.eqb (toLowerCase (exeFile p)) key) procs
           with
           | [] => None
           | l => Some l
           end.
Proof.
  unfold Tracker.reduce_byName.
  induction procs as [|x procs IH] using rev_ind.
  - exists ∅. split; [reflexivity|]. intros key. apply lookup_empty.
  - destruct IH as (byName & Hfold & Hlookup).
    exists (Tracker.setdefault_push byName (toLowerCase (exeFile x)) x). split.
    + rewrite map_app, foldl_app, Hfold. reflexivity.
    + intros key. rewrite List.filter_app. cbn [List.filter].
      unfold Tracker.setdefault_push.
      destruct (String.eqb (toLowerCase (exeFile x)) key) eqn:Hkey.
      * apply String.eqb_eq in Hkey. subst key.
        rewrite lookup_insert_eq, Hlookup.
        destruct (List.filter _ procs) as [|y l]; reflexivity.
      * apply String.eqb_neq in Hkey.
        rewrite lookup_insert_ne by exact Hkey.
        rewrite app_nil_r. apply Hlookup.
Qed.

(** X3.  On a process list without [null] entries the name index is built
    without an exception, and under each key it holds exactly the records
    whose lower-cased executable name is the key, in the order of the
    list; a key no record maps to is absent (never an empty array). *)
Theorem reduce_byName_groups (procs : list IProcessInfo) :
  exists byName,
    Tracker.reduce_byName (map Some procs) = Ok byName
    /\ forall key,
         byName !! key
         = match List.filter
                   (fun p => String.eqb (toLowerCase (exeFile p)) key) procs
           with
           | [] => None
           | l => Some l
           end.
Proof.
  unfold Tracker.reduce_byName.
  induction procs as [|x procs IH] using rev_ind.
  - exists ∅. split; [reflexivity|]. intros key. apply lookup_empty.
  - destruct IH as (byName & Hfold & Hlookup).
    exists (Tracker.setdefault_push byName (toLowerCase (exeFile x)) x). split.
    + rewrite map_app, foldl_app, Hfold. reflexivity.
    + intros key. rewrite List.filter_app. cbn [List.filter].
      unfold Tracker.setdefault_push.
      destruct (String.eqb (toLowerCase (exeFile x)) key) eqn:Hkey.
      * apply String.eqb_eq in Hkey. subst key.
        rewrite lookup_insert_eq, Hlookup.
        destruct (List.filter _ procs) as [|y l]; reflexivity.
      * apply String.eqb_neq in Hkey.
        rewrite lookup_insert_ne by exact Hkey.
        rewrite app_nil_r. apply Hlookup.
Qed.

(** ** What a check dispatches, and what it never dispatches *)

Lemma no_null_map_Some (processes : list (option IProcessInfo)) :
  ~ In None processes -> exists procs, processes = map Some procs.
Proof.
  induction processes as [|x l IH]; intros H.
  - exists []. reflexivity.
  - destruct x as [p|].
    + destruct IH as [procs ->]; [intros Hin; apply H; right; exact Hin|].
      exists (p :: procs). reflexivity.
    + destruct H. left. reflexivity.
Qed.

Lemma reduce_byPid_Ok_records processes byPid :
  Tracker.reduce_byPid processes = Ok byPid ->
  exists procs, processes = map Some procs.
Proof.
  intros H. apply no_null_map_Some. intros Hin.
  unfold Tracker.reduce_byPid in H.
  rewrite (reduce_byPid_null_from processes ∅ Hin) in H. discriminate.
Qed.

Lemma snapshot_indices processes byPid byName :
  Tracker.reduce_byPid processes = Ok byPid ->
  Tracker.reduce_byName processes = Ok byName ->
  exists procs,
    processes = map Some procs
    /\ (forall n,
          byPid !! n
          = List.find (fun p => bool_decide (processID p = n)) (rev procs))
    /\ (forall key,
          byName !! key
          = match List.filter
                    (fun p => String.eqb (toLowerCase (exeFile p)) key) procs
            with
            | [] => None
            | l => Some l
            end).
Proof.
  intros HbyPid HbyName.
  destruct (reduce_byPid_Ok_records processes byPid HbyPid) as [procs ->].
  exists procs. split; [reflexivity|].
  destruct (byPid_lookup_last procs) as (byPid' & HbyPid' & Hpid).
  destruct (byName_lookup_group procs) as (byName' & HbyName' & Hname).
  rewrite HbyPid in HbyPid'. injection HbyPid' as <-.
  rewrite HbyName in HbyName'. injection HbyName' as <-.
  split; assumption.
Qed.

Lemma byName_member processes byPid byName key running m :
  Tracker.reduce_byPid processes = Ok byPid ->
  Tracker.reduce_byName processes = Ok byName ->
  byName !! key = Some running -> In m running ->
  In (Some m) processes /\ toLowerCase (exeFile m) = key.
Proof.
  intros HbyPid HbyName Hkey Hm.
  destruct (snapshot_indices processes byPid byName HbyPid HbyName)
    as (procs & -> & _ & Hname).
  rewrite Hname in Hkey.
  assert (Hin : In m (List.filter
                        (fun p => String.eqb (toLowerCase (exeFile p)) key)
                        procs)).
  { destruct (List.filter _ procs) as [|y l]; [discriminate|].
    injection Hkey as <-. exact Hm. }
  apply filter_In in Hin. destruct Hin as [Hin Heq].
  split; [apply in_map; exact Hin | apply String.eqb_eq; exact Heq].
Qed.

Section UpdateSound.

Variable makeExeId : string -> string.
Variable GetModuleList : number -> list ModuleEntry.t.
Variable vortexPid : number.
Variable byPid : gmap number IProcessInfo.
Variable byName : gmap string (list IProcessInfo).
Variable state : IState.

Local Abbreviation update :=
  (Tracker.update makeExeId GetModuleList vortexPid byPid byName state).

Lemma update_started_sound P excl det P' n e :
  In (setToolPid P' n e) (update P excl det) ->
  P' = P /\ e = excl
  /\ exists running m,
       byName !! makeExeId P = Some running
       /\ In m running /\ processID m = n
       /\ Tracker.confirmed GetModuleList P m = true
       /\ (det = false ->
           Tracker.isChildProcess vortexPid byPid (Some m) ∅ = true).
Proof.
  unfold Tracker.update.
  destruct (byName !! makeExeId P) as [running|] eqn:Hrunning.
  2: { destruct (bool_decide _); cbn; intuition discriminate. }
  destruct (bool_decide _ && bool_decide _); [intros []|].
  destruct (List.find _ _) as [m|] eqn:Hfind.
  2: { destruct (bool_decide _); cbn; intuition discriminate. }
  intros [H|[]]. injection H as <- <- <-.
  split; [reflexivity|]. split; [reflexivity|].
  apply List.find_some in Hfind. destruct Hfind as [Hm Hconf].
  exists running, m. split; [reflexivity|].
  split; [eapply candidates_incl; exact Hm|].
  split; [reflexivity|]. split; [exact Hconf|].
  intros ->. unfold Tracker.candidates_of in Hm.
  apply filter_In in Hm. exact (proj2 Hm).
Qed.



End UpdateSound.

(** X4.  A check dispatches [setToolPid] for a path only with the pid of
    a process of the enumerated list whose lower-cased executable name is
    the exe id of the path and whose first module path equals the path up
    to case. *)
Theorem doCheck_started_sound
    (makeExeId : string -> string) (path_join : list string -> string)
    (GetModuleList : number -> list ModuleEntry.t) (vortexPid : number)
    (processes : list (option IProcessInfo)) (state : IState)
    (P : string) (n : number) (e : bool) :
  In (setToolPid P n e)
     (fst (Tracker.doCheck makeExeId path_join GetModuleList vortexPid
             (Ok processes) state)) ->
  exists m main others,
    In (Some m) processes
    /\ processID m = n
    /\ toLowerCase (exeFile m) = makeExeId P
    /\ GetModuleList n = main :: others
    /\ toLowerCase (ModuleEntry.exePath main) = toLowerCase P.
Proof.
  intros Hin. apply doCheck_actions in Hin.
  destruct Hin as (processes' & byPid & byName & excl & det
                   & Heq & HbyPid & HbyName & Hin).
  injection Heq as <-. cbn [action_path] in Hin.
  apply update_started_sound in Hin.
  destruct Hin as (_ & _ & running & m & Hrunning & Hm & Hpid & Hconf & _).
  destruct (byName_member processes byPid byName _ running m
              HbyPid HbyName Hrunning Hm) as [Hproc Hname].
  apply confirmed_spec in Hconf.
  destruct Hconf as (main & others & Hlist & Hpath).
  exists m, main, others. rewrite <- Hpid. tauto.
Qed.

Lemma doCheck_started_sound_witness :
  exists m main others,
    In (Some m) tool_processes
    /\ processID m = Num 200
    /\ toLowerCase (exeFile m) = Host.makeExeId_spec tool_path_example
    /\ modules_example (Num 200) = main :: others
    /\ toLowerCase (ModuleEntry.exePath main) = toLowerCase tool_path_example.
Proof.
  apply (doCheck_started_sound Host.makeExeId_spec Host.path_join_posix
           modules_example (Num 1) tool_processes state_fresh
           tool_path_example (Num 200) true).
  vm_compute. left. reflexivity.
Defined.



Lemma update_tools_bound makeExeId GetModuleList vortexPid byPid byName state
    tools :
  (length (Tracker.update_tools makeExeId GetModuleList vortexPid
             byPid byName state tools)
   <= length (omap (fun entry : string * IDiscoveredTool =>
                      tool_path (snd entry)) tools))%nat
  /\ forall a,
       In a (Tracker.update_tools makeExeId GetModuleList vortexPid
               byPid byName state tools) ->
       In (action_path a)
          (omap (fun entry : string * IDiscoveredTool =>
                   tool_path (snd entry)) tools).
Proof.
  unfold Tracker.update_tools.
  induction tools as [|[toolId tool] tools [IHlen IHin]]; cbn.
  - split; [lia | intros a []].
  - destruct (tool_path tool) as [p|]; cbn.
    + split.
      * rewrite length_app.
        pose proof (update_length makeExeId GetModuleList vortexPid byPid
                      byName state p (default false (tool_exclusive tool))
                      false).
        lia.
      * intros a Ha. apply in_app_or in Ha. destruct Ha as [Ha|Ha].
        -- left. symmetry. eapply update_action_path. exact Ha.
        -- right. apply IHin, Ha.
    + split; [exact IHlen | exact IHin].
Qed.

(** A check dispatches no more actions than it has targets, and only for
    target paths: the joined path of the game's executable and the paths
    of the game's discovered tools.  Tools without a path get none. *)
Lemma doCheck_bounded
    (makeExeId : string -> string) (path_join : list string -> string)
    (GetModuleList : number -> list ModuleEntry.t) (vortexPid : number)
    (getProcessList : result (list (option IProcessInfo))) (state : IState) :
  (length (fst (Tracker.doCheck makeExeId path_join GetModuleList vortexPid
                  getProcessList state))
   <= length (target_paths path_join state))%nat
  /\ forall a,
       In a (fst (Tracker.doCheck makeExeId path_join GetModuleList vortexPid
                    getProcessList state)) ->
       In (action_path a) (target_paths path_join state).
Proof.
  unfold Tracker.doCheck, target_paths.
  destruct getProcessList as [processes|e];
    [|split; [cbn; lia | intros a []]].
  destruct (Tracker.reduce_byPid processes) as [byPid|e];
    [|split; [cbn; lia | intros a []]].
  destruct (Tracker.reduce_byName processes) as [byName|e];
    [|split; [cbn; lia | intros a []]].
  destruct (Tracker.gameExe state) as [exe|];
    [|split; [cbn; lia | intros a []]].
  destruct (Tracker.gamePath state) as [dir|];
    [|split; [cbn; lia | intros a []]].
  pose proof (update_length makeExeId GetModuleList vortexPid byPid byName
                state (path_join [dir; exe]) true true) as Hfirst.
  destruct (currentGame state) as [g|]; cbn [fst].
  - destruct (update_tools_bound makeExeId GetModuleList vortexPid byPid
                byName state (default [] (discovered state !! game_id g)))
      as [Hlen Hin].
    split.
    + rewrite length_app. cbn [length]. lia.
    + intros a Ha. apply in_app_or in Ha. destruct Ha as [Ha|Ha].
      * left. symmetry. eapply update_action_path. exact Ha.
      * right. apply Hin, Ha.
  - split; [cbn [length]; lia|].
    intros a Ha. left. symmetry. eapply update_action_path. exact Ha.
Qed.



(** ** Parsing a status line *)

Lemma str_app_assoc (a b c : string) : (a +:+ b) +:+ c = a +:+ (b +:+ c).
Proof.
  induction a as [|x a IH]; [reflexivity|].
  change (String x ((a +:+ b) +:+ c) = String x (a +:+ (b +:+ c))).
  rewrite IH. reflexivity.
Qed.

Lemma strlen_nonneg s : 0 <= strlen s.
Proof. unfold strlen. lia. Qed.

Lemma strlen_String c s : strlen (String c s) = strlen s + 1.
Proof. unfold strlen. cbn [String.length]. lia. Qed.

Lemma strlen_app a b : strlen (a +:+ b) = strlen a + strlen b.
Proof.
  induction a as [|x a IH].
  - change (EmptyString +:+ b) with b. unfold strlen. simpl. lia.
  - change (String x a +:+ b) with (String x (a +:+ b)).
    rewrite !strlen_String, IH. lia.
Qed.

Lemma drop_str_app a b : drop_str (String.length a) (a +:+ b) = b.
Proof. induction a as [|x a IH]; simpl; [reflexivity | exact IH]. Qed.

Lemma take_str_app a b : take_str (String.length a) (a +:+ b) = a.
Proof.
  induction a as [|x a IH]; simpl; [destruct b; reflexivity|].
  rewrite IH. reflexivity.
Qed.

Lemma to_nat_strlen s : Z.to_nat (strlen s) = String.length s.
Proof. unfold strlen. lia. Qed.

Lemma index_from_first c a b i :
  occurs c a = false -> index_from c (a +:+ String c b) i = i + strlen a.
Proof.
  revert i. induction a as [|x a IH]; intros i H; simpl.
  - rewrite Ascii.eqb_refl. unfold strlen. simpl. lia.
  - simpl in H. apply orb_false_iff in H. destruct H as [Hx Ha].
    rewrite Hx, (IH _ Ha), strlen_String. lia.
Qed.

Lemma last_index_from_none c s i :
  occurs c s = false -> last_index_from c s i = -1.
Proof.
  revert i. induction s as [|x s IH]; intros i H; simpl; [reflexivity|].
  simpl in H. apply orb_false_iff in H. destruct H as [Hx Hs].
  rewrite (IH _ Hs), Hx. reflexivity.
Qed.

Lemma last_index_from_last c a b i :
  0 <= i -> occurs c b = false ->
  last_index_from c (a +:+ String c b) i = i + strlen a.
Proof.
  revert i. induction a as [|x a IH]; intros i Hi H; simpl.
  - rewrite (last_index_from_none c b _ H), Ascii.eqb_refl.
    unfold strlen. simpl. lia.
  - rewrite (IH (i + 1)) by (lia || exact H).
    pose proof (strlen_nonneg a).
    destruct (i + 1 + strlen a =? -1) eqn:Heq; [lia|].
    rewrite strlen_String. lia.
Qed.

Lemma slice_middle a b c :
  slice (a +:+ b +:+ c) (strlen a) (strlen a + strlen b) = b.
Proof.
  unfold slice. rewrite !strlen_app.
  pose proof (strlen_nonneg a). pose proof (strlen_nonneg b).
  pose proof (strlen_nonneg c).
  destruct (strlen a <? 0) eqn:Hlt1; [lia|].
  destruct (strlen a + strlen b <? 0) eqn:Hlt2; [lia|].
  rewrite Z.min_l by lia. rewrite Z.min_l by lia.
  replace (strlen a + strlen b - strlen a) with (strlen b) by lia.
  rewrite !to_nat_strlen, drop_str_app. apply take_str_app.
Qed.

Lemma indexOf_from a b c x :
  occurs x b = false ->
  indexOf (a +:+ b +:+ String x c) x (strlen a) = strlen a + strlen b.
Proof.
  intros H. unfold indexOf, clamp. rewrite !strlen_app.
  pose proof (strlen_nonneg a). pose proof (strlen_nonneg b).
  pose proof (strlen_nonneg (String x c)).
  rewrite Z.max_l by lia. rewrite Z.min_l by lia.
  rewrite to_nat_strlen, drop_str_app.
  apply index_from_first, H.
Qed.

Section ParseStat.

Variable path_join : list string -> string.
Variable fs : FileSystem.

(** X8.  For a status line of the documented form
    [head(comm) s ppid rest], where [head] holds no opening parenthesis,
    nothing after the closing parenthesis of the name holds a closing
    one and [ppid] holds no space, [getProcessInfo] returns the record
    with the name [comm] (which may itself hold parentheses and spaces),
    the parent pid parsed from [ppid] and the pid parsed from the
    directory name. *)
Theorem getProcessInfo_parses
    (pid head comm ppid rest : string) (st : ascii) :
  let tail := String " " (String st (String " " (ppid +:+ String " " rest))) in
  let stat := head +:+ String "(" (comm +:+ String ")" tail) in
  readFileSync fs
    (path_join [ProcessMonitorImplProcfs.proc_path; pid; "stat"%string])
  = Ok stat ->
  occurs "(" head = false ->
  occurs ")" tail = false ->
  occurs " " ppid = false ->
  ProcessMonitorImplProcfs.getProcessInfo path_join fs pid
  = Ok (Some {| processID := parseInt pid;
                parentProcessID := parseInt ppid;
                exeFile := comm |}).
Proof.
  intros tail stat Hread Hhead Htail Hppid.
  unfold ProcessMonitorImplProcfs.getProcessInfo. rewrite Hread.
  pose proof (strlen_nonneg head) as Hh. pose proof (strlen_nonneg comm) as Hc.
  assert (Hopen : indexOf stat "(" 0 = strlen head).
  { unfold indexOf, clamp. rewrite Z.max_l by lia.
    rewrite Z.min_l by apply strlen_nonneg.
    change (drop_str (Z.to_nat 0) stat) with stat.
    unfold stat. rewrite index_from_first by exact Hhead. lia. }
  assert (Hstat1 : stat = (head +:+ String "(" comm) +:+ String ")" tail).
  { unfold stat. rewrite str_app_assoc. reflexivity. }
  assert (Hclose : lastIndexOf stat ")" = strlen head + 1 + strlen comm).
  { unfold lastIndexOf. rewrite Hstat1.
    rewrite last_index_from_last by (lia || exact Htail).
    rewrite strlen_app, strlen_String. lia. }
  rewrite Hopen, Hclose.
  assert (Hname : slice stat (strlen head + 1) (strlen head + 1 + strlen comm)
                  = comm).
  { assert (Hstat2 : stat = (head +:+ "(") +:+ comm +:+ String ")" tail).
    { unfold stat. rewrite str_app_assoc. reflexivity. }
    rewrite Hstat2.
    replace (strlen head + 1) with (strlen (head +:+ "("))
      by (rewrite strlen_app; reflexivity).
    apply slice_middle. }
  set (before := (head +:+ String "(" comm)
                 +:+ String ")" (String " " (String st " "))).
  assert (Hstat3 : stat = before +:+ ppid +:+ String " " rest).
  { unfold before. rewrite Hstat1, !str_app_assoc. reflexivity. }
  assert (Hbefore : strlen before = strlen head + 1 + strlen comm + 4).
  { unfold before. rewrite !strlen_app, !strlen_String.
    unfold strlen at 3. cbn. lia. }
  rewrite <- Hbefore.
  assert (Hspace : indexOf stat " " (strlen before)
                   = strlen before + strlen ppid).
  { rewrite Hstat3. apply indexOf_from, Hppid. }
  rewrite Hspace.
  assert (Hparent : slice stat (strlen before) (strlen before + strlen ppid)
                    = ppid).
  { rewrite Hstat3. apply slice_middle. }
  rewrite Hparent, Hname. reflexivity.
Qed.

End ParseStat.

Lemma getProcessInfo_parses_witness :
  ProcessMonitorImplProcfs.getProcessInfo
    (fun _ => "stat"%string)
    (mkFileSystem readdir_example
       (fun _ => Ok "4242 (my (odd) name) S 17 4242 4242 0"%string))
    "4242"
  = Ok (Some {| processID := parseInt "4242";
                parentProcessID := parseInt "17";
                exeFile := "my (odd) name" |}).
Proof.
  apply (getProcessInfo_parses (fun _ => "stat"%string)
           (mkFileSystem readdir_example
              (fun _ => Ok "4242 (my (odd) name) S 17 4242 4242 0"%string))
           "4242" "4242 " "my (odd) name" "17" "4242 4242 0" "S");
    reflexivity.
Defined.

(** ** Pids of enumerated processes *)

Lemma digit_char c :
  (let n := nat_of_ascii c in negb ((n <? 48) || (57 <? n))%nat) = true ->
  is_space c = false /\ Ascii.eqb c "-" = false /\ Ascii.eqb c "+" = false
  /\ is_x c = false
  /\ exists d, digit_value 10 c = Some d /\ 0 <= d.
Proof.
  destruct c as [[] [] [] [] [] [] [] []]; intros H; vm_compute in H;
    try discriminate H;
    (repeat split; try reflexivity; eexists; split;
     [vm_compute; reflexivity | lia]).
Qed.

Lemma digit_value_nonneg radix c d : digit_value radix c = Some d -> 0 <= d.
Proof.
  unfold digit_value.
  set (n := Z.of_nat (nat_of_ascii c)).
  destruct ((48 <=? n) && (n <=? 57)) eqn:H1.
  - destruct (n - 48 <? radix); [|discriminate].
    intros H. injection H as <-. lia.
  - destruct ((97 <=? n) && (n <=? 122)) eqn:H2.
    + destruct (n - 87 <? radix); [|discriminate].
      intros H. injection H as <-. lia.
    + destruct ((65 <=? n) && (n <=? 90)) eqn:H3; [|discriminate].
      destruct (n - 55 <? radix); [|discriminate].
      intros H. injection H as <-. lia.
Qed.

Lemma parse_digits_seen s acc :
  0 <= acc ->
  exists v, parse_digits 10 s acc true = (v, true) /\ 0 <= v.
Proof.
  revert acc. induction s as [|c s IH]; intros acc Hacc; simpl.
  - exists acc. split; [reflexivity | exact Hacc].
  - destruct (digit_value 10 c) as [d|] eqn:Hd.
    + apply IH. apply digit_value_nonneg in Hd. lia.
    + exists acc. split; [reflexivity | exact Hacc].
Qed.

Lemma digits_parse_nonneg (s : string) :
  ProcessMonitorImplProcfs.isOnlyDigits s = true ->
  s <> EmptyString ->
  exists n, 0 <= n /\ parseInt s = Num n.
Proof.
  intros Hdigits Hne.
  destruct s as [|c s]; [congruence|]. clear Hne.
  unfold ProcessMonitorImplProcfs.isOnlyDigits in Hdigits.
  simpl in Hdigits. apply andb_true_iff in Hdigits.
  destruct Hdigits as [Hc Hs].
  destruct (digit_char c Hc) as (Hspace & Hminus & Hplus & _ & d & Hd & Hd0).
  unfold parseInt. simpl skip_spaces. rewrite Hspace, Hminus, Hplus.
  assert (Hradix : (match String c s with
                    | String c0 (String c1 r) =>
                        if Ascii.eqb c0 "0" && is_x c1 then (16, r)
                        else (10, String c s)
                    | _ => (10, String c s)
                    end) = (10, String c s)).
  { destruct s as [|c1 r]; [reflexivity|].
    simpl in Hs. apply andb_true_iff in Hs. destruct Hs as [Hc1 _].
    destruct (digit_char c1 Hc1) as (_ & _ & _ & Hx & _).
    rewrite Hx, andb_false_r. reflexivity. }
  rewrite Hradix. simpl parse_digits. rewrite Hd.
  destruct (parse_digits_seen s (0 * 10 + d) ltac:(lia)) as (v & Hv & Hv0).
  rewrite Hv. exists v. split; [exact Hv0|]. f_equal. lia.
Qed.

(** X9.  A directory name made of digits only, unless it is empty, parses
    to a non-negative integer: the pid of a record is never [NaN].  (The
    empty name passes [isOnlyDigits] too and parses to [NaN].) *)
Theorem isOnlyDigits_parseInt (s : string) :
  ProcessMonitorImplProcfs.isOnlyDigits s = true ->
  s <> EmptyString ->
  exists n, 0 <= n /\ parseInt s = Num n.
Proof.
  intros Hdigits Hne.
  destruct s as [|c s]; [congruence|]. clear Hne.
  unfold ProcessMonitorImplProcfs.isOnlyDigits in Hdigits.
  simpl in Hdigits. apply andb_true_iff in Hdigits.
  destruct Hdigits as [Hc Hs].
  destruct (digit_char c Hc) as (Hspace & Hminus & Hplus & _ & d & Hd & Hd0).
  unfold parseInt. simpl skip_spaces. rewrite Hspace, Hminus, Hplus.
  assert (Hradix : (match String c s with
                    | String c0 (String c1 r) =>
                        if Ascii.eqb c0 "0" && is_x c1 then (16, r)
                        else (10, String c s)
                    | _ => (10, String c s)
                    end) = (10, String c s)).
  { destruct s as [|c1 r]; [reflexivity|].
    simpl in Hs. apply andb_true_iff in Hs. destruct Hs as [Hc1 _].
    destruct (digit_char c1 Hc1) as (_ & _ & _ & Hx & _).
    rewrite Hx, andb_false_r. reflexivity. }
  rewrite Hradix. simpl parse_digits. rewrite Hd.
  destruct (parse_digits_seen s (0 * 10 + d) ltac:(lia)) as (v & Hv & Hv0).
  rewrite Hv. exists v. split; [exact Hv0|]. f_equal. lia.
Qed.

Lemma isOnlyDigits_parseInt_witness :
  exists n, 0 <= n /\ parseInt "4242" = Num n.
Proof.
  apply (isOnlyDigits_parseInt "4242"); [reflexivity | discriminate].
Defined.

Example isOnlyDigits_empty :
  ProcessMonitorImplProcfs.isOnlyDigits "" = true /\ parseInt "" = NaN.
Proof. split; reflexivity. Qed.

Lemma mapM_Ok_In_inv {A B} (f : A -> result B) l ys y :
  mapM f l = Ok ys -> In y ys -> exists x, In x l /\ f x = Ok y.
Proof.
  revert ys. induction l as [|a l IH]; intros ys H Hy; simpl in H.
  - injection H as <-. destruct Hy.
  - destruct (f a) as [b|e] eqn:Hfa; [|discriminate].
    destruct (mapM f l) as [ys'|e]; [|discriminate].
    simpl in H. injection H as <-.
    destruct Hy as [<-|Hy].
    + exists a. split; [left; reflexivity | exact Hfa].
    + destruct (IH ys' eq_refl Hy) as (x & Hx & Hfx).
      exists x. split; [right; exact Hx | exact Hfx].
Qed.

Lemma mapM_all_Ok {A B} (f : A -> result B) (g : A -> B) l :
  (forall x, In x l -> f x = Ok (g x)) -> mapM f l = Ok (map g l).
Proof.
  induction l as [|a l IH]; intros H; simpl; [reflexivity|].
  rewrite (H a (or_introl eq_refl)). simpl.
  rewrite IH by (intros x Hx; apply H; right; exact Hx). reflexivity.
Qed.

Section EnumeratorProps.

Variable path_join : list string -> string.
Variable fs : FileSystem.

Local Abbreviation getProcessInfo :=
  (ProcessMonitorImplProcfs.getProcessInfo path_join fs).
Local Abbreviation getProcessList :=
  (ProcessMonitorImplProcfs.getProcessList path_join fs).

Lemma getProcessInfo_pid pid r :
  getProcessInfo pid = Ok (Some r) -> processID r = parseInt pid.
Proof.
  unfold ProcessMonitorImplProcfs.getProcessInfo.
  destruct (readFileSync fs _) as [stat|[code|]]; [| |discriminate].
  - intros H. injection H as <-. reflexivity.
  - destruct (String.eqb code "ENOENT"); discriminate.
Qed.

Lemma getProcessInfo_readable pid stat :
  readFileSync fs
    (path_join [ProcessMonitorImplProcfs.proc_path; pid; "stat"%string])
  = Ok stat ->
  exists r, getProcessInfo pid = Ok (Some r) /\ processID r = parseInt pid.
Proof.
  unfold ProcessMonitorImplProcfs.getProcessInfo. intros ->.
  eexists. split; reflexivity.
Qed.

End EnumeratorProps.

(** X10.  Every record of a successful enumeration stems from a directory
    entry made of digits only, and its pid is the non-negative integer
    this entry denotes (directory entries are never empty). *)
Theorem getProcessList_records
    (path_join : list string -> string) (fs : FileSystem)
    (entries : list string) (processes : list (option IProcessInfo))
    (r : IProcessInfo) :
  readdirSync fs ProcessMonitorImplProcfs.proc_path = Ok entries ->
  (forall e, In e entries -> e <> EmptyString) ->
  ProcessMonitorImplProcfs.getProcessList path_join fs = Ok processes ->
  In (Some r) processes ->
  exists e n,
    In e entries
    /\ ProcessMonitorImplProcfs.isOnlyDigits e = true
    /\ 0 <= n /\ parseInt e = Num n /\ processID r = Num n.
Proof.
  intros Hdir Hnonempty Hlist Hr.
  unfold ProcessMonitorImplProcfs.getProcessList in Hlist.
  rewrite Hdir in Hlist. simpl in Hlist.
  destruct (mapM_Ok_In_inv _ _ _ _ Hlist Hr) as (e & He & Hinfo).
  apply filter_In in He. destruct He as [He Hdigits].
  destruct (digits_parse_nonneg e Hdigits (Hnonempty e He)) as (n & Hn & Hparse).
  exists e, n. repeat split; try assumption.
  rewrite (getProcessInfo_pid path_join fs e r Hinfo). exact Hparse.
Qed.

Lemma getProcessList_records_witness :
  exists e n,
    In e ["1"; "100"; "self"; "200"; "300"; "uptime"]%string
    /\ ProcessMonitorImplProcfs.isOnlyDigits e = true
    /\ 0 <= n /\ parseInt e = Num n /\ processID tool_p200 = Num n.
Proof.
  apply (getProcessList_records Host.path_join_posix fs_example
           ["1"; "100"; "self"; "200"; "300"; "uptime"]%string
           [Some vortex_p1; Some tool_p100; Some tool_p200; Some tool_p300]
           tool_p200).
  - reflexivity.
  - intros e He.
    repeat (destruct He as [<-|He]; [discriminate|]). destruct He.
  - vm_compute. reflexivity.
  - right. right. left. reflexivity.
Defined.

(** X11.  If the listing succeeds and the status file of every entry
    made of digits can be read, the enumeration succeeds without [null]
    entries: it returns one record per such entry, in the order of the
    listing, with the pid parsed from the entry; other entries are
    ignored. *)
Theorem getProcessList_all_readable
    (path_join : list string -> string) (fs : FileSystem)
    (entries : list string) :
  readdirSync fs ProcessMonitorImplProcfs.proc_path = Ok entries ->
  (forall e, In e entries ->
             ProcessMonitorImplProcfs.isOnlyDigits e = true ->
             exists stat,
               readFileSync fs
                 (path_join [ProcessMonitorImplProcfs.proc_path; e;
                             "stat"%string]) = Ok stat) ->
  exists procs,
    ProcessMonitorImplProcfs.getProcessList path_join fs = Ok (map Some procs)
    /\ map processID procs
       = map parseInt
           (List.filter ProcessMonitorImplProcfs.isOnlyDigits entries).
Proof.
  intros Hdir Hread.
  unfold ProcessMonitorImplProcfs.getProcessList. rewrite Hdir. simpl bind.
  assert (Hall : forall l,
             (forall e, In e l ->
                exists stat,
                  readFileSync fs
                    (path_join [ProcessMonitorImplProcfs.proc_path; e;
                                "stat"%string]) = Ok stat) ->
             exists procs,
               mapM (ProcessMonitorImplProcfs.getProcessInfo path_join fs) l
               = Ok (map Some procs)
               /\ map processID procs = map parseInt l).
  { induction l as [|e l IH]; intros Hl.
    - exists []. split; reflexivity.
    - destruct (Hl e (or_introl eq_refl)) as [stat Hstat].
      destruct (getProcessInfo_readable path_join fs e stat Hstat)
        as (r & Hr & Hpid).
      destruct IH as (procs & Hprocs & Hpids);
        [intros e' He'; apply Hl; right; exact He'|].
      exists (r :: procs). split.
      + simpl. rewrite Hr. simpl. rewrite Hprocs. reflexivity.
      + simpl. rewrite Hpid, Hpids. reflexivity. }
  apply Hall. intros e He. apply filter_In in He.
  destruct He as [He Hdigits]. exact (Hread e He Hdigits).
Qed.

Lemma getProcessList_all_readable_witness :
  exists procs,
    ProcessMonitorImplProcfs.getProcessList Host.path_join_posix fs_example
    = Ok (map Some procs)
    /\ map processID procs
       = map parseInt
           (List.filter ProcessMonitorImplProcfs.isOnlyDigits
              ["1"; "100"; "self"; "200"; "300"; "uptime"]%string).
Proof.
  apply (getProcessList_all_readable Host.path_join_posix fs_example
           ["1"; "100"; "self"; "200"; "300"; "uptime"]%string).
  - reflexivity.
  - intros e He Hdigits.
    repeat (destruct He as [<-|He];
            [first [discriminate Hdigits
                   | eexists; vm_compute; reflexivity]|]).
    destruct He.
Defined.

(** ** When a check ends with an exception *)

Lemma reduce_byName_Ok procs :
  exists byName, Tracker.reduce_byName (map Some procs) = Ok byName.
Proof. destruct (byName_lookup_group procs) as (m & H & _). eauto. Qed.

Lemma reduce_byPid_Ok procs :
  exists byPid, Tracker.reduce_byPid (map Some procs) = Ok byPid.
Proof. destruct (byPid_lookup_last procs) as (m & H & _). eauto. Qed.


(** ** The scheduler over whole runs *)

Section RunProps.
Import ProcessMonitor.

Context {Env : Type}.
Local Abbreviation W := (@World Env).
Variable doCheck : W -> W * option Error.
Hypothesis doCheck_env_only : Runs.env_only doCheck.

Lemma env_only_frame : doCheck_frame doCheck.
Proof using doCheck_env_only.
  intros w. destruct (doCheck_env_only w) as [e ->].
  split; [reflexivity | exact (fun H => H)].
Qed.

Lemma concat_repeat_snoc {A} (x : list A) n :
  concat (repeat x n) ++ x = concat (repeat x (S n)).
Proof.
  change (concat (repeat x (S n))) with (x ++ concat (repeat x n)).
  induction n as [|n IH]; [simpl; rewrite app_nil_r; reflexivity|].
  change (concat (repeat x (S n))) with (x ++ concat (repeat x n)).
  rewrite <- app_assoc, IH. reflexivity.
Qed.

Lemma clearTimeout_delays (w : W) t t' d :
  In (t', d) (timers (clearTimeout t w)) -> In (t', d) (timers w).
Proof. cbn. intros H. apply filter_In in H. exact (proj1 H). Qed.

Lemma well_formed_start (w : W) :
  single_pending w -> Runs.well_formed w -> Runs.well_formed (start w).
Proof using Type.
  intros Hsp Hwf.
  unfold start.
  destruct (mImpl w) as [impl|] eqn:Hi; [|exact Hwf].
  destruct (mActive w) eqn:Hact; [exact Hwf|].
  destruct Hwf as (Himpl & Hidle & Hwin & Hdelay & n & Hlog).
  rewrite Hact in Hlog.
  assert (Hts : timers (match mTimer w with
                        | Some t => clearTimeout t w
                        | None => w
                        end) = []).
  { destruct (mTimer w) as [t|] eqn:Ht.
    - apply clearTimeout_own; assumption.
    - apply no_timer_no_pending; assumption. }
  assert (Hsame : forall w1 : W,
             w1 = match mTimer w with
                  | Some t => clearTimeout t w
                  | None => w
                  end ->
             mImpl w1 = mImpl w /\ remote w1 = remote w
             /\ mWindow w1 = mWindow w /\ logged w1 = logged w).
  { intros w1 ->. destruct (mTimer w); repeat split; reflexivity. }
  set (w1 := match mTimer w with Some t => clearTimeout t w | None => w end)
    in *.
  destruct (Hsame w1 eq_refl) as (Hi1 & Hr1 & Hw1 & Hl1).
  unfold Runs.well_formed.
  rewrite app_nil_r in Hlog.
  destruct (remote w1) as [win|] eqn:Hrem; cbn; rewrite Hts, ?Hi1, ?Hl1, ?Hw1.
  - split; [intros _; rewrite Hi; discriminate|].
    split; [discriminate|].
    split; [intros _; rewrite Hrem; discriminate|].
    split; [intros t d [H|[]]; injection H as <- <-; left; reflexivity|].
    exists n. rewrite Hlog. reflexivity.
  - split; [intros _; rewrite Hi; discriminate|].
    split; [discriminate|].
    split; [intros Hw; exfalso; apply (Hwin Hw); congruence|].
    split; [intros t d [H|[]]; injection H as <- <-; left; reflexivity|].
    exists n. rewrite Hlog. reflexivity.
Qed.

Lemma well_formed_end (w : W) :
  single_pending w -> Runs.well_formed w -> Runs.well_formed (end_ w).
Proof using Type.
  intros Hsp Hwf.
  unfold end_.
  destruct (mTimer w) as [t|] eqn:Ht; [|exact Hwf].
  destruct Hwf as (Himpl & Hidle & Hwin & Hdelay & n & Hlog).
  assert (Hact : mActive w = true).
  { destruct (mActive w); [reflexivity|].
    specialize (Hidle eq_refl). congruence. }
  unfold Runs.well_formed. cbn.
  rewrite (clearTimeout_own w t Hsp Ht : List.filter _ _ = []).
  split; [discriminate|]. split; [reflexivity|]. split; [exact Hwin|].
  split; [intros t' d []|].
  exists (S n). rewrite Hlog, Hact, app_nil_r.
  rewrite <- concat_repeat_snoc, <- app_assoc. reflexivity.
Qed.

Lemma well_formed_check (w : W) :
  timers w = [] -> Runs.well_formed w ->
  Runs.well_formed (fst (check doCheck w)).
Proof using doCheck_env_only.
  intros Hts Hwf. unfold check.
  destruct (mActive w) eqn:Hact; cbn [negb]; [|exact Hwf].
  destruct Hwf as (Himpl & Hidle & Hwin & Hdelay & n & Hlog).
  rewrite Hact in Hlog.
  destruct (window_absent_or_focused w) eqn:Hfocus.
  - destruct (doCheck_env_only w) as [e He].
    destruct (doCheck w) as [w1 err]. cbn [fst] in He. subst w1.
    destruct err as [err|]; cbn [fst].
    + unfold Runs.well_formed. cbn.
      split; [exact Himpl|]. split; [exact Hidle|]. split; [exact Hwin|].
      split; [exact Hdelay|]. exists n. rewrite Hact. exact Hlog.
    + cbn. rewrite Hact. cbn. unfold Runs.well_formed. cbn.
      rewrite Hts, ?Hact.
      split; [intros _; exact (Himpl Hact)|]. split; [discriminate|].
      split; [exact Hwin|].
      split; [intros t d [H|[]]; injection H as <- <-; left; reflexivity|].
      exists n. exact Hlog.
  - cbn. unfold Runs.well_formed. cbn. rewrite Hts, Hact.
    split; [intros _; exact (Himpl Hact)|]. split; [discriminate|].
    split; [exact Hwin|].
    split.
    + intros t d [H|[]]. injection H as <- <-. right. split; [reflexivity|].
      unfold window_absent_or_focused in Hfocus.
      destruct (mWindow w); discriminate.
    + exists n. exact Hlog.
Qed.

Lemma reachable_well_formed (w : W) :
  reachable doCheck w -> Runs.well_formed w.
Proof using doCheck_env_only.
  induction 1 as [platform rem focus e|w w' Hreach IH Hstep].
  - unfold Runs.well_formed. cbn.
    split; [discriminate|]. split; [reflexivity|]. split; [congruence|].
    split; [intros t d []|]. exists 0%nat. reflexivity.
  - pose proof (reachable_single_pending doCheck w env_only_frame Hreach)
      as Hsp.
    destruct Hstep as [w|w|w t d Hin|w b].
    + apply well_formed_start; assumption.
    + apply well_formed_end; assumption.
    + unfold fire. apply well_formed_check.
      * apply clearTimeout_own; [exact Hsp|].
        destruct Hsp as (_ & Hown & _). exact (Hown t d Hin).
      * destruct IH as (Himpl & Hidle & Hwin & Hdelay & n & Hlog).
        unfold Runs.well_formed. cbn.
        split; [exact Himpl|]. split; [exact Hidle|]. split; [exact Hwin|].
        split; [|exists n; exact Hlog].
        intros t' d' H'. apply filter_In in H'.
        exact (Hdelay t' d' (proj1 H')).
    + exact IH.
Qed.

End RunProps.

Lemma host_doCheck_env_only makeExeId path_join GetModuleList vortexPid :
  Runs.env_only (Host.doCheck makeExeId path_join GetModuleList vortexPid).
Proof.
  intros w. unfold Host.doCheck.
  destruct (Tracker.doCheck _ _ _ _ _ _) as [actions err].
  eexists. reflexivity.
Qed.

(** X13.  Timers are only ever armed with 2000 ms or 5000 ms, and with
    5000 ms only when a window is known: a monitor that runs where
    electron's [remote] is undefined always polls at the baseline period. *)
Theorem timer_periods {Env : Type}
    (doCheck : @ProcessMonitor.World Env -> @ProcessMonitor.World Env * option Error)
    (w : @ProcessMonitor.World Env) (t : nat) (d : Z) :
  Runs.env_only doCheck ->
  ProcessMonitor.reachable doCheck w ->
  In (t, d) (ProcessMonitor.timers w) ->
  d = 2000 \/ (d = 5000 /\ ProcessMonitor.remote w <> None).
Proof.
  intros Henv Hreach Hin.
  destruct (reachable_well_formed doCheck Henv w Hreach)
    as (_ & _ & Hwin & Hdelay & _).
  destruct (Hdelay t d Hin) as [H|[H Hw]]; [left; exact H|].
  right. split; [exact H | exact (Hwin Hw)].
Qed.

(** X14.  The lines the monitor logs alternate between "start process
    monitor" and "stop process monitor", beginning with a start; the
    monitor is active exactly when the last line is a start. *)
Theorem log_alternates {Env : Type}
    (doCheck : @ProcessMonitor.World Env -> @ProcessMonitor.World Env * option Error)
    (w : @ProcessMonitor.World Env) :
  Runs.env_only doCheck ->
  ProcessMonitor.reachable doCheck w ->
  exists n,
    ProcessMonitor.logged w
    = concat (repeat [Runs.log_start; Runs.log_stop] n)
      ++ (if ProcessMonitor.mActive w then [Runs.log_start] else []).
Proof.
  intros Henv Hreach.
  destruct (reachable_well_formed doCheck Henv w Hreach)
    as (_ & _ & _ & _ & Hlog).
  exact Hlog.
Qed.

(** X15.  A tick whose check ends with an exception leaves the monitor
    active without a pending timer: no further tick can fire, and
    [start] does nothing; only [end] followed by [start] arms a timer
    again. *)
Theorem exception_stops_polling {Env : Type}
    (doCheck : @ProcessMonitor.World Env -> @ProcessMonitor.World Env * option Error)
    (w : @ProcessMonitor.World Env) (t : nat) (d : Z) (e : Error) :
  Runs.env_only doCheck ->
  ProcessMonitor.reachable doCheck w ->
  In (t, d) (ProcessMonitor.timers w) ->
  snd (ProcessMonitor.fire doCheck t w) = Some e ->
  let w' := fst (ProcessMonitor.fire doCheck t w) in
  ProcessMonitor.timers w' = []
  /\ ProcessMonitor.mActive w' = true
  /\ ProcessMonitor.start w' = w'
  /\ exists t',
       ProcessMonitor.timers (ProcessMonitor.start (ProcessMonitor.end_ w'))
       = [(t', 2000)].
Proof.
  intros Henv Hreach Hin Herr w'.
  pose proof (reachable_single_pending doCheck w (env_only_frame doCheck Henv)
                Hreach) as Hsp.
  assert (Hreach' : ProcessMonitor.reachable doCheck w').
  { eapply ProcessMonitor.reachable_step; [exact Hreach|].
    apply (ProcessMonitor.step_tick doCheck w t d Hin). }
  assert (Hcleared : ProcessMonitor.timers (ProcessMonitor.clearTimeout t w) = []).
  { apply clearTimeout_own; [exact Hsp|].
    destruct Hsp as (_ & Hown & _). exact (Hown t d Hin). }
  assert (Hfacts : ProcessMonitor.timers w' = []
                   /\ ProcessMonitor.mActive w' = true).
  { unfold w' in *. unfold ProcessMonitor.fire, ProcessMonitor.check in *.
    set (w0 := ProcessMonitor.clearTimeout t w) in *.
    destruct (ProcessMonitor.mActive w0) eqn:Hact; cbn [negb] in *;
      [|discriminate Herr].
    destruct (ProcessMonitor.window_absent_or_focused w0);
      [|discriminate Herr].
    destruct (Henv w0) as [env' Henv'].
    destruct (doCheck w0) as [w1 err]. cbn [fst] in Henv'. subst w1.
    destruct err as [err|].
    - cbn. split; [exact Hcleared | exact Hact].
    - cbn [snd] in Herr.
      destruct (ProcessMonitor.mActive (ProcessMonitor.set_env env' w0))
        in Herr; cbn in Herr; discriminate Herr. }
  destruct Hfacts as [Hts Hact].
  split; [exact Hts|]. split; [exact Hact|].
  split; [apply start_when_active, Hact|].
  assert (Hreach'' : ProcessMonitor.reachable doCheck (ProcessMonitor.end_ w')).
  { eapply ProcessMonitor.reachable_step; [exact Hreach'|].
    apply ProcessMonitor.step_end. }
  pose proof (reachable_single_pending doCheck _ (env_only_frame doCheck Henv)
                Hreach'') as Hsp''.
  pose proof (reachable_single_pending doCheck _ (env_only_frame doCheck Henv)
                Hreach') as Hsp'.
  destruct (reachable_well_formed doCheck Henv w' Hreach') as (Himpl & _).
  destruct (start_arms_one (ProcessMonitor.end_ w') Hsp'')
    as (t' & Harmed & _).
  - apply end_clears, Hsp'.
  - assert (Hsame : ProcessMonitor.mImpl (ProcessMonitor.end_ w')
                    = ProcessMonitor.mImpl w').
    { unfold ProcessMonitor.end_.
      destruct (ProcessMonitor.mTimer w'); reflexivity. }
    rewrite Hsame. exact (Himpl Hact).
  - exists t'. exact Harmed.
Qed.

(** X16.  A tick on an active monitor whose check raises no exception
    arms exactly one new timer: polling goes on. *)
Theorem tick_rearms {Env : Type}
    (doCheck : @ProcessMonitor.World Env -> @ProcessMonitor.World Env * option Error)
    (w : @ProcessMonitor.World Env) (t : nat) (d : Z) :
  Runs.env_only doCheck ->
  ProcessMonitor.reachable doCheck w ->
  In (t, d) (ProcessMonitor.timers w) ->
  snd (ProcessMonitor.fire doCheck t w) = None ->
  let w' := fst (ProcessMonitor.fire doCheck t w) in
  exists t' d',
    ProcessMonitor.timers w' = [(t', d')]
    /\ ProcessMonitor.mTimer w' = Some t'
    /\ ProcessMonitor.mActive w' = true
    /\ (d' = 2000 \/ d' = 5000).
Proof.
  intros Henv Hreach Hin Hok w'.
  pose proof (reachable_single_pending doCheck w (env_only_frame doCheck Henv)
                Hreach) as Hsp.
  destruct (reachable_well_formed doCheck Henv w Hreach)
    as (_ & Hidle & _).
  assert (Htimer : ProcessMonitor.mTimer w = Some t).
  { destruct Hsp as (_ & Hown & _). exact (Hown t d Hin). }
  assert (Hact : ProcessMonitor.mActive w = true).
  { destruct (ProcessMonitor.mActive w); [reflexivity|].
    specialize (Hidle eq_refl). congruence. }
  assert (Hcleared : ProcessMonitor.timers (ProcessMonitor.clearTimeout t w) = [])
    by (apply clearTimeout_own; assumption).
  assert (Hact0 : ProcessMonitor.mActive (ProcessMonitor.clearTimeout t w)
                  = true) by exact Hact.
  unfold w' in *. unfold ProcessMonitor.fire, ProcessMonitor.check in *.
  remember (ProcessMonitor.clearTimeout t w) as w0 eqn:Hw0.
  rewrite Hact0 in *. cbn [negb] in *.
  destruct (ProcessMonitor.window_absent_or_focused w0).
  - destruct (Henv w0) as [env' Henv'].
    destruct (doCheck w0) as [w1 err]. cbn [fst] in Henv'. subst w1.
    destruct err as [err|]; [discriminate Hok|].
    cbn. rewrite Hact0. cbn. rewrite Hcleared.
    eexists _, _. repeat split; try exact Hact0. left. reflexivity.
  - cbn. rewrite Hcleared.
    eexists _, _. repeat split; try exact Hact0. right. reflexivity.
Qed.

Lemma reachable_started focus fs :
  ProcessMonitor.reachable doCheck_example
    (ProcessMonitor.start (world_new focus fs)).
Proof.
  eapply ProcessMonitor.reachable_step.
  - apply ProcessMonitor.reachable_new.
  - apply ProcessMonitor.step_start.
Qed.

Lemma timer_periods_witness :
  let w := fst (ProcessMonitor.fire doCheck_example 0
                  (ProcessMonitor.start (world_new false fs_example))) in
  5000 = 2000 \/ (5000 = 5000 /\ ProcessMonitor.remote w <> None).
Proof.
  intros w.
  apply (timer_periods doCheck_example w 1%nat 5000).
  - apply host_doCheck_env_only.
  - eapply ProcessMonitor.reachable_step; [apply reachable_started|].
    apply (ProcessMonitor.step_tick doCheck_example _ 0%nat 2000).
    vm_compute. left. reflexivity.
  - vm_compute. left. reflexivity.
Defined.

Lemma log_alternates_witness :
  let w := ProcessMonitor.end_
             (ProcessMonitor.start (world_new true fs_example)) in
  exists n,
    ProcessMonitor.logged w
    = concat (repeat [Runs.log_start; Runs.log_stop] n)
      ++ (if ProcessMonitor.mActive w then [Runs.log_start] else []).
Proof.
  intros w.
  apply (log_alternates doCheck_example w).
  - apply host_doCheck_env_only.
  - eapply ProcessMonitor.reachable_step; [apply reachable_started|].
    apply ProcessMonitor.step_end.
Defined.

Lemma exception_stops_polling_witness :
  let w' := fst (ProcessMonitor.fire doCheck_example 0
                   (ProcessMonitor.start (world_new true fs_vanished))) in
  ProcessMonitor.timers w' = []
  /\ ProcessMonitor.mActive w' = true
  /\ ProcessMonitor.start w' = w'
  /\ exists t',
       ProcessMonitor.timers (ProcessMonitor.start (ProcessMonitor.end_ w'))
       = [(t', 2000)].
Proof.
  apply (exception_stops_polling doCheck_example
           (ProcessMonitor.start (world_new true fs_vanished))
           0%nat 2000 TypeError).
  - apply host_doCheck_env_only.
  - apply reachable_started.
  - vm_compute. left. reflexivity.
  - vm_compute. reflexivity.
Defined.

Lemma tick_rearms_witness :
  let w' := fst (ProcessMonitor.fire doCheck_example 0
                   (ProcessMonitor.start (world_new true fs_example))) in
  exists t' d',
    ProcessMonitor.timers w' = [(t', d')]
    /\ ProcessMonitor.mTimer w' = Some t'
    /\ ProcessMonitor.mActive w' = true
    /\ (d' = 2000 \/ d' = 5000).
Proof.
  apply (tick_rearms doCheck_example
           (ProcessMonitor.start (world_new true fs_example)) 0%nat 2000).
  - apply host_doCheck_env_only.
  - apply reachable_started.
  - vm_compute. left. reflexivity.
  - vm_compute. reflexivity.
Defined.

(** X17.  On a platform without an enumerator the monitor is inert:
    whatever is called on it, no timer is ever armed, it never becomes
    active, it logs nothing and no check runs; only the focus of the
    window changes. *)
Theorem unsupported_platform_inert {Env : Type}
    (doCheck : @ProcessMonitor.World Env -> @ProcessMonitor.World Env * option Error)
    (rem : option BrowserWindow) (focus : bool) (e : Env)
    (w : @ProcessMonitor.World Env) :
  Runs.run doCheck
    (ProcessMonitor.constructor other_platform rem focus e) w ->
  exists focus', w = ProcessMonitor.constructor other_platform rem focus' e.
Proof.
  induction 1 as [|w w' _ [b ->] Hstep].
  - exists focus. reflexivity.
  - inversion Hstep as [w0|w0|w0 t d Hin|w0 b']; subst.
    + exists b. reflexivity.
    + exists b. reflexivity.
    + destruct Hin.
    + exists b'. reflexivity.
Qed.

Lemma unsupported_platform_inert_witness :
  exists focus',
    ProcessMonitor.start
      (ProcessMonitor.set_focused false
         (ProcessMonitor.start
            (ProcessMonitor.constructor other_platform (Some CurrentWindow)
               true (env_example fs_example))))
    = ProcessMonitor.constructor other_platform (Some CurrentWindow)
        focus' (env_example fs_example).
Proof.
  apply (unsupported_platform_inert doCheck_example (Some CurrentWindow)
           true (env_example fs_example)).
  eapply Runs.run_step; [|apply ProcessMonitor.step_start].
  eapply Runs.run_step; [|apply ProcessMonitor.step_focus].
  eapply Runs.run_step; [|apply ProcessMonitor.step_start].
  apply Runs.run_here.
Defined.

(** ** Further witnesses and a comparison of the two kinds of target *)

Lemma isChildProcess_iff_descendant_witness :
  Tracker.isChildProcess (Num 1) chain_byPid (Some chain_p60) ∅ = true
  /\ ~ Ancestry.is_descendant (Num 1) chain_byPid chain_p70.
Proof.
  split.
  - apply (proj2 (isChildProcess_iff_descendant (Num 1) chain_byPid chain_p60)).
    exists 1%nat. split; [vm_compute; reflexivity|].
    intros i q Hi Hq.
    destruct i as [|[|i]]; [| |lia]; vm_compute in Hq;
      injection Hq as <-; reflexivity.
  - intros H.
    apply (proj2 (isChildProcess_iff_descendant (Num 1) chain_byPid chain_p70))
      in H.
    vm_compute in H. discriminate H.
Defined.

Lemma doCheck_bounded_example :
  In (action_path (setToolPid tool_path_example (Num 200) true))
     (target_paths Host.path_join_posix state_fresh).
Proof.
  apply (proj2 (doCheck_bounded Host.makeExeId_spec
                  Host.path_join_posix modules_example (Num 1)
                  (Ok tool_processes) state_fresh)).
  vm_compute. left. reflexivity.
Defined.


Example doCheck_unknown_game :
  Tracker.doCheck Host.makeExeId_spec Host.path_join_posix
    modules_example (Num 1) (Ok tool_processes) state_unknown_game
  = ([setToolPid tool_path_example (Num 200) true], Some TypeError).
Proof. vm_compute. reflexivity. Qed.

Lemma find_filter_first {A} (ok child : A -> bool) l mf :
  List.find ok (List.filter child l) = Some mf ->
  exists m', List.find ok l = Some m' /\ (m' = mf \/ child m' = false).
Proof.
  induction l as [|x l IH]; simpl; [discriminate|].
  destruct (child x) eqn:Hchild; simpl.
  - destruct (ok x).
    + intros H. injection H as <-. exists x. split; [reflexivity | left; reflexivity].
    + exact IH.
  - destruct (ok x).
    + intros _. exists x. split; [reflexivity | right; exact Hchild].
    + exact IH.
Qed.

(** X18.  Allowing detached matches only adds matches: whenever [update]
    dispatches [setToolPid] for a target that requires descent from the
    monitor, it also dispatches [setToolPid] for the same target with
    detached matches allowed, with the same pid unless a confirmed
    process that does not descend from the monitor comes first. *)
Theorem detached_matches_more
    (makeExeId : string -> string)
    (GetModuleList : number -> list ModuleEntry.t) (vortexPid : number)
    (byPid : gmap number IProcessInfo)
    (byName : gmap string (list IProcessInfo))
    (state : IState) (P : string) (excl : bool) (n : number) :
  Tracker.update makeExeId GetModuleList vortexPid byPid byName state
    P excl false = [setToolPid P n excl] ->
  exists m',
    Tracker.update makeExeId GetModuleList vortexPid byPid byName state
      P excl true = [setToolPid P (processID m') excl]
    /\ (processID m' = n
        \/ Tracker.isChildProcess vortexPid byPid (Some m') ∅ = false).
Proof.
  intros Hupdate.
  assert (Hin : In (setToolPid P n excl)
                  (Tracker.update makeExeId GetModuleList vortexPid byPid
                     byName state P excl false))
    by (rewrite Hupdate; left; reflexivity).
  apply update_started_sound in Hin.
  destruct Hin as (_ & _ & running & _ & Hrunning & _).
  assert (Hsteady : toolsRunning state !! makeExeId P
                      ≫= (fun k => byPid !! pid k) = None).
  { unfold Tracker.update in Hupdate. rewrite Hrunning in Hupdate.
    destruct (toolsRunning state !! makeExeId P) as [k|]; [|reflexivity].
    cbn in Hupdate |- *.
    destruct (byPid !! pid k); [|reflexivity].
    cbn in Hupdate. discriminate Hupdate. }
  rewrite (update_find _ _ _ _ _ _ _ _ _ running Hrunning Hsteady) in Hupdate.
  rewrite (update_find _ _ _ _ _ _ _ _ _ running Hrunning Hsteady).
  unfold Tracker.candidates_of in *.
  destruct (List.find _ (List.filter _ running)) as [mf|] eqn:Hfilt;
    [|destruct (bool_decide _); discriminate Hupdate].
  injection Hupdate as Hn.
  destruct (find_filter_first _ _ _ _ Hfilt) as (m' & Hfind & Hm').
  exists m'. rewrite Hfind. split; [reflexivity|].
  destruct Hm' as [->|Hm']; [left; exact Hn | right; exact Hm'].
Qed.

Lemma detached_matches_more_witness :
  exists m',
    Tracker.update Host.makeExeId_spec modules_example (Num 1)
      tool_byPid tool_byName state_fresh tool_path_example false true
    = [setToolPid tool_path_example (processID m') false]
    /\ (processID m' = Num 200
        \/ Tracker.isChildProcess (Num 1) tool_byPid (Some m') ∅ = false).
Proof.
  apply (detached_matches_more Host.makeExeId_spec modules_example (Num 1)
           tool_byPid tool_byName state_fresh tool_path_example false
           (Num 200)).
  vm_compute. reflexivity.
Defined.

(* ===================================================================== *)
(** * The check, target by target *)
(* ===================================================================== *)

Example targets_with_tool :
  targets Host.path_join_posix (state_with_tool known5)
  = [mkTarget "/configured/path/game.exe" true true;
     mkTarget tool_path_example false false].
Proof. vm_compute. reflexivity. Qed.

Example doCheck_listed_twice_stopped :
  Tracker.doCheck Host.makeExeId_spec Host.path_join_posix modules_example
    (Num 1) (Ok unconfirmed_processes) (state_listed_twice known5)
  = ([setToolStopped tool_path_example; setToolStopped tool_path_example],
     None).
Proof. vm_compute. reflexivity. Qed.

Example doCheck_listed_twice_started :
  Tracker.doCheck Host.makeExeId_spec Host.path_join_posix modules_example
    (Num 1) (Ok tool_processes) (state_listed_twice known5)
  = ([setToolPid tool_path_example (Num 200) true;
      setToolPid tool_path_example (Num 200) false], None).
Proof. vm_compute. reflexivity. Qed.

Lemma target_paths_targets path_join state :
  map target_path (targets path_join state) = target_paths path_join state.
Proof.
  unfold targets, target_paths.
  destruct (Tracker.gameExe state); [|reflexivity].
  destruct (Tracker.gamePath state); [|reflexivity].
  simpl. f_equal.
  destruct (currentGame state) as [g|]; [|reflexivity].
  induction (default [] (discovered state !! game_id g)) as [|[k tool] l IH];
    [reflexivity|].
  simpl. destruct (tool_path tool); simpl; [f_equal|]; exact IH.
Qed.

Section PerTarget.

Variable makeExeId : string -> string.
Variable path_join : list string -> string.
Variable GetModuleList : number -> list ModuleEntry.t.
Variable vortexPid : number.

Local Abbreviation update_target :=
  (update_target makeExeId GetModuleList vortexPid).
Local Abbreviation doCheck :=
  (Tracker.doCheck makeExeId path_join GetModuleList vortexPid).

Lemma update_tools_per_target byPid byName state tools :
  Tracker.update_tools makeExeId GetModuleList vortexPid byPid byName state
    tools
  = flat_map (update_target byPid byName state)
      (omap (fun entry : string * IDiscoveredTool =>
               match tool_path (snd entry) with
               | Some p =>
                   Some (mkTarget p
                           (default false (tool_exclusive (snd entry)))
                           false)
               | None => None
               end) tools).
Proof.
  unfold Tracker.update_tools.
  induction tools as [|[k tool] tools IH]; [reflexivity|].
  simpl. destruct (tool_path tool) as [p|]; simpl.
  - rewrite IH. reflexivity.
  - exact IH.
Qed.

(** The actions of a check are those of its targets, in order. *)
Lemma doCheck_actions_by_target processes byPid byName state :
  Tracker.reduce_byPid processes = Ok byPid ->
  Tracker.reduce_byName processes = Ok byName ->
  fst (doCheck (Ok processes) state)
  = flat_map (update_target byPid byName state) (targets path_join state).
Proof.
  intros HbyPid HbyName. unfold Tracker.doCheck, targets.
  rewrite HbyPid, HbyName.
  destruct (Tracker.gameExe state) as [exe|]; [|reflexivity].
  destruct (Tracker.gamePath state) as [dir|]; [|reflexivity].
  destruct (currentGame state) as [g|]; cbn [fst flat_map].
  - rewrite update_tools_per_target. reflexivity.
  - rewrite app_nil_r. reflexivity.
Qed.

Lemma actions_for_app P l1 l2 :
  actions_for P (l1 ++ l2) = actions_for P l1 ++ actions_for P l2.
Proof. apply List.filter_app. Qed.

Lemma actions_for_update byPid byName state P t :
  actions_for P (update_target byPid byName state t)
  = if String.eqb (target_path t) P then update_target byPid byName state t
    else [].
Proof.
  unfold actions_for.
  assert (Hpath : forall a, In a (update_target byPid byName state t) ->
                            action_path a = target_path t).
  { intros a Ha. eapply update_action_path. exact Ha. }
  induction (update_target byPid byName state t) as [|a l IH].
  - destruct (String.eqb _ _); reflexivity.
  - simpl. rewrite (Hpath a (or_introl eq_refl)).
    rewrite IH by (intros a' Ha'; apply Hpath; right; exact Ha').
    destruct (String.eqb (target_path t) P); reflexivity.
Qed.

Lemma actions_for_other byPid byName state P ts :
  ~ In P (map target_path ts) ->
  actions_for P (flat_map (update_target byPid byName state) ts) = [].
Proof.
  induction ts as [|t ts IH]; intros Hnot; [reflexivity|].
  simpl. rewrite actions_for_app, actions_for_update.
  rewrite IH by (intros Hin; apply Hnot; right; exact Hin).
  destruct (String.eqb (target_path t) P) eqn:Heq; [|reflexivity].
  apply String.eqb_eq in Heq. destruct Hnot. left. exact Heq.
Qed.

End PerTarget.

(** ** Claims about the transitions of a check *)

(** C5, as stated, fails: the game's executable is also listed as one of
    its tools, so the path is a target twice; the known pid 5 is gone and
    neither [tool.exe] process is confirmed, and the check dispatches
    [setToolStopped] for the path twice, not exactly once. *)
Lemma vanished_stops_once_counterexample :
  ~ (forall (processes : list (option IProcessInfo))
            (byPid : gmap number IProcessInfo) (state : IState)
            (P : string) (k : IRunningTool),
        Tracker.reduce_byPid processes = Ok byPid ->
        In P (target_paths Host.path_join_posix state) ->
        toolsRunning state !! Host.makeExeId_spec P = Some k ->
        byPid !! pid k = None ->
        (forall m, In (Some m) processes ->
                   toLowerCase (exeFile m) = Host.makeExeId_spec P ->
                   Tracker.confirmed modules_example P m = false) ->
        actions_for P
          (fst (Tracker.doCheck Host.makeExeId_spec Host.path_join_posix
                  modules_example (Num 1) (Ok processes) state))
        = [setToolStopped P]).
Proof.
  intros H.
  specialize (H unconfirmed_processes unconfirmed_byPid
                (state_listed_twice known5) tool_path_example
                (mkRunningTool (Num 5) true)
                ltac:(vm_compute; reflexivity)
                ltac:(vm_compute; left; reflexivity)
                ltac:(vm_compute; reflexivity)
                ltac:(vm_compute; reflexivity)).
  assert (Hnone : forall m, In (Some m) unconfirmed_processes ->
                    toLowerCase (exeFile m)
                    = Host.makeExeId_spec tool_path_example ->
                    Tracker.confirmed modules_example tool_path_example m
                    = false).
  { intros m [Hm|[Hm|[]]] _; injection Hm as <-; vm_compute; reflexivity. }
  specialize (H Hnone). vm_compute in H. discriminate H.
Qed.

(** C5, amended.  If the known-running state has an entry for [P] whose
    pid is absent from [byPid], and no process carrying the executable
    name of [P] is confirmed as a match, then the check dispatches
    [setToolStopped P] once for each of its targets with the path [P]
    (exactly one when [P] is a target once) and nothing else for [P]; in
    particular no [setToolPid].  No target has an exe id inherited from
    [Object.prototype]. *)
Theorem vanished_without_replacement_stops
    (makeExeId : string -> string) (path_join : list string -> string)
    (GetModuleList : number -> list ModuleEntry.t) (vortexPid : number)
    (processes : list (option IProcessInfo))
    (byPid : gmap number IProcessInfo)
    (byName : gmap string (list IProcessInfo))
    (state : IState) (P : string) (k : IRunningTool) :
  Tracker.reduce_byPid processes = Ok byPid ->
  Tracker.reduce_byName processes = Ok byName ->
  plain_targets makeExeId (targets path_join state) = true ->
  toolsRunning state !! makeExeId P = Some k ->
  byPid !! pid k = None ->
  (forall m, In (Some m) processes ->
             toLowerCase (exeFile m) = makeExeId P ->
             Tracker.confirmed GetModuleList P m = false) ->
  actions_for P
    (fst (Tracker.doCheck makeExeId path_join GetModuleList vortexPid
            (Ok processes) state))
  = repeat (setToolStopped P)
      (count_occ string_dec (target_paths path_join state) P)
  /\ (count_occ string_dec (target_paths path_join state) P = 1%nat ->
      actions_for P
        (fst (Tracker.doCheck makeExeId path_join GetModuleList vortexPid
                (Ok processes) state))
      = [setToolStopped P]).
Proof.
  intros HbyPid HbyName _ Hknown Hgone Hnone.
  assert (Hupdate : forall excl det,
             Tracker.update makeExeId GetModuleList vortexPid byPid byName
               state P excl det = [setToolStopped P]).
  { intros excl det. apply (update_vanished_stops _ _ _ _ _ _ _ _ _ k);
      [exact Hknown | exact Hgone |].
    intros running c Hrunning Hc.
    destruct (byName_member processes byPid byName _ running c
                HbyPid HbyName Hrunning Hc) as [Hproc Hname].
    apply Hnone; assumption. }
  assert (Hall : actions_for P
                   (fst (Tracker.doCheck makeExeId path_join GetModuleList
                           vortexPid (Ok processes) state))
                 = repeat (setToolStopped P)
                     (count_occ string_dec (target_paths path_join state) P)).
  { rewrite (doCheck_actions_by_target _ _ _ _ processes byPid byName state
               HbyPid HbyName).
    rewrite <- target_paths_targets.
    induction (targets path_join state) as [|t ts IH]; [reflexivity|].
    cbn [flat_map map]. rewrite actions_for_app, actions_for_update, IH.
    cbn [count_occ].
    destruct (string_dec (target_path t) P) as [Heq|Hne].
    - rewrite (proj2 (String.eqb_eq _ _) Heq).
      unfold update_target. rewrite Heq, Hupdate. reflexivity.
    - rewrite (proj2 (String.eqb_neq _ _) Hne). reflexivity. }
  split; [exact Hall|].
  intros Hone. rewrite Hall, Hone. reflexivity.
Qed.

Lemma vanished_without_replacement_stops_witness :
  actions_for tool_path_example
    (fst (Tracker.doCheck Host.makeExeId_spec Host.path_join_posix
            modules_example (Num 1) (Ok unconfirmed_processes)
            (state_with_tool known5)))
  = [setToolStopped tool_path_example].
Proof.
  assert (Hnone : forall m, In (Some m) unconfirmed_processes ->
                    toLowerCase (exeFile m)
                    = Host.makeExeId_spec tool_path_example ->
                    Tracker.confirmed modules_example tool_path_example m
                    = false).
  { intros m [Hm|[Hm|[]]] _; injection Hm as <-; vm_compute; reflexivity. }
  apply (vanished_without_replacement_stops Host.makeExeId_spec
           Host.path_join_posix modules_example (Num 1)
           unconfirmed_processes unconfirmed_byPid unconfirmed_byName
           (state_with_tool known5) tool_path_example
           (mkRunningTool (Num 5) true)
           ltac:(vm_compute; reflexivity) ltac:(vm_compute; reflexivity)
           ltac:(vm_compute; reflexivity) ltac:(vm_compute; reflexivity)
           ltac:(vm_compute; reflexivity) Hnone).
  vm_compute. reflexivity.
Defined.

(** C7.  For every target of a check that gets past the steady-state
    test: among the candidates left by the ancestry filter the check
    selects the first whose main module path (the first entry of the
    module list of its pid) equals the target's path up to case, and at
    the target's place in the sequence of dispatched actions it
    dispatches exactly [setToolPid] with that candidate's pid and the
    target's [exclusive] flag; a candidate whose module list is empty is
    never confirmed, hence never selected.  No target has an exe id
    inherited from [Object.prototype]. *)
Theorem first_confirmed_candidate_selected
    (makeExeId : string -> string) (path_join : list string -> string)
    (GetModuleList : number -> list ModuleEntry.t) (vortexPid : number)
    (processes : list (option IProcessInfo))
    (byPid : gmap number IProcessInfo)
    (byName : gmap string (list IProcessInfo))
    (state : IState) (P : string) (excl det : bool)
    (pre post : list Target)
    (running before after : list IProcessInfo) (m : IProcessInfo)
    (main : ModuleEntry.t) (others : list ModuleEntry.t) :
  Tracker.reduce_byPid processes = Ok byPid ->
  Tracker.reduce_byName processes = Ok byName ->
  plain_targets makeExeId (targets path_join state) = true ->
  targets path_join state = pre ++ mkTarget P excl det :: post ->
  byName !! makeExeId P = Some running ->
  toolsRunning state !! makeExeId P ≫= (fun k => byPid !! pid k) = None ->
  Tracker.candidates_of vortexPid byPid det running = before ++ m :: after ->
  (forall c main' others',
      In c before -> GetModuleList (processID c) = main' :: others' ->
      toLowerCase (ModuleEntry.exePath main') <> toLowerCase P) ->
  GetModuleList (processID m) = main :: others ->
  toLowerCase (ModuleEntry.exePath main) = toLowerCase P ->
  fst (Tracker.doCheck makeExeId path_join GetModuleList vortexPid
         (Ok processes) state)
  = flat_map (update_target makeExeId GetModuleList vortexPid
                byPid byName state) pre
    ++ setToolPid P (processID m) excl
       :: flat_map (update_target makeExeId GetModuleList vortexPid
                      byPid byName state) post
  /\ In m running
  /\ (forall c, In c (before ++ m :: after) ->
        GetModuleList (processID c) = [] ->
        Tracker.confirmed GetModuleList P c = false /\ c <> m).
Proof.
  intros HbyPid HbyName _ Htargets Hrunning Hnot_steady Hcands Hbefore
    Hmodules Hmain.
  destruct (update_first_confirmed makeExeId GetModuleList vortexPid byPid
              byName state P excl det running before after m main others
              Hrunning Hnot_steady Hcands Hbefore Hmodules Hmain)
    as [Hupdate Hempty].
  split; [|split; [|exact Hempty]].
  - rewrite (doCheck_actions_by_target _ _ _ _ processes byPid byName state
               HbyPid HbyName).
    rewrite Htargets, flat_map_app. cbn [flat_map].
    unfold update_target at 2. cbn [target_path target_exclusive target_detached].
    rewrite Hupdate. reflexivity.
  - apply (candidates_incl vortexPid byPid det).
    rewrite Hcands. apply in_or_app. right. left. reflexivity.
Qed.

Lemma first_confirmed_candidate_selected_witness :
  fst (Tracker.doCheck Host.makeExeId_spec Host.path_join_posix
         modules_example (Num 1) (Ok tool_processes) (state_with_tool ∅))
  = [setToolPid tool_path_example (Num 200) false]
  /\ Tracker.confirmed modules_example tool_path_example tool_p300 = false.
Proof.
  assert (Hbefore : forall c main' others',
             In c [tool_p300; tool_p100] ->
             modules_example (processID c) = main' :: others' ->
             toLowerCase (ModuleEntry.exePath main')
             <> toLowerCase tool_path_example).
  { intros c main' others' [<-|[<-|[]]] Hlist; vm_compute in Hlist.
    - discriminate.
    - injection Hlist as <- <-. vm_compute. discriminate. }
  destruct (first_confirmed_candidate_selected Host.makeExeId_spec
              Host.path_join_posix modules_example (Num 1)
              tool_processes tool_byPid tool_byName (state_with_tool ∅)
              tool_path_example false false
              [mkTarget "/configured/path/game.exe" true true] []
              [tool_p300; tool_p100; tool_p200] [tool_p300; tool_p100] []
              tool_p200
              (ModuleEntry.mk "/Configured/Path/Tool.EXE")
              [ModuleEntry.mk "/lib/libc.so"]
              ltac:(vm_compute; reflexivity) ltac:(vm_compute; reflexivity)
              ltac:(vm_compute; reflexivity) ltac:(vm_compute; reflexivity)
              ltac:(vm_compute; reflexivity) ltac:(vm_compute; reflexivity)
              ltac:(vm_compute; reflexivity) Hbefore
              ltac:(reflexivity) ltac:(vm_compute; reflexivity))
    as (Hcheck & _ & Hempty).
  split.
  - rewrite Hcheck. vm_compute. reflexivity.
  - apply (Hempty tool_p300); [left; reflexivity | reflexivity].
Defined.

(** C10, as stated, fails: the game's executable is also listed as one
    of its tools; the known pid 5 is gone and pid 200 is confirmed, and
    the check dispatches two [setToolPid] for the path (one with
    [exclusive = true] for the game, one with [false] for the tool), not
    a single one. *)
Lemma restart_single_started_counterexample :
  ~ (forall (processes : list (option IProcessInfo))
            (byPid : gmap number IProcessInfo) (state : IState)
            (P : string) (k : IRunningTool) (m : IProcessInfo),
        Tracker.reduce_byPid processes = Ok byPid ->
        In P (target_paths Host.path_join_posix state) ->
        toolsRunning state !! Host.makeExeId_spec P = Some k ->
        byPid !! pid k = None ->
        In (Some m) processes ->
        toLowerCase (exeFile m) = Host.makeExeId_spec P ->
        Tracker.isChildProcess (Num 1) byPid (Some m) ∅ = true ->
        Tracker.confirmed modules_example P m = true ->
        exists n e,
          actions_for P
            (fst (Tracker.doCheck Host.makeExeId_spec Host.path_join_posix
                    modules_example (Num 1) (Ok processes) state))
          = [setToolPid P n e]).
Proof.
  intros H.
  destruct (H tool_processes tool_byPid (state_listed_twice known5)
              tool_path_example (mkRunningTool (Num 5) true) tool_p200
              ltac:(vm_compute; reflexivity)
              ltac:(vm_compute; left; reflexivity)
              ltac:(vm_compute; reflexivity)
              ltac:(vm_compute; reflexivity)
              ltac:(right; right; left; reflexivity)
              ltac:(vm_compute; reflexivity)
              ltac:(vm_compute; reflexivity)
              ltac:(vm_compute; reflexivity)) as (n & e & Hone).
  vm_compute in Hone. discriminate Hone.
Qed.

(** C10, amended.  If the known-running state has an entry for [P] whose
    pid is absent from [byPid], then for each target of the check with
    the path [P] for which one of the candidates left by the ancestry
    filter is confirmed as a match, the check dispatches at that target's
    place exactly one action: [setToolPid] for [P] with the pid of the
    first confirmed candidate and that target's [exclusive] flag, and no
    [setToolStopped]; when [P] is a target only once, this is the only
    action for [P].  No target has an exe id inherited from
    [Object.prototype]. *)
Theorem restart_collapses_to_started
    (makeExeId : string -> string) (path_join : list string -> string)
    (GetModuleList : number -> list ModuleEntry.t) (vortexPid : number)
    (processes : list (option IProcessInfo))
    (byPid : gmap number IProcessInfo)
    (byName : gmap string (list IProcessInfo))
    (state : IState) (P : string) (excl det : bool)
    (pre post : list Target)
    (k : IRunningTool) (running : list IProcessInfo) (c : IProcessInfo) :
  Tracker.reduce_byPid processes = Ok byPid ->
  Tracker.reduce_byName processes = Ok byName ->
  plain_targets makeExeId (targets path_join state) = true ->
  targets path_join state = pre ++ mkTarget P excl det :: post ->
  toolsRunning state !! makeExeId P = Some k ->
  byPid !! pid k = None ->
  byName !! makeExeId P = Some running ->
  In c (Tracker.candidates_of vortexPid byPid det running) ->
  Tracker.confirmed GetModuleList P c = true ->
  exists m,
    List.find (Tracker.confirmed GetModuleList P)
      (Tracker.candidates_of vortexPid byPid det running) = Some m
    /\ In (Some m) processes
    /\ Tracker.confirmed GetModuleList P m = true
    /\ fst (Tracker.doCheck makeExeId path_join GetModuleList vortexPid
              (Ok processes) state)
       = flat_map (update_target makeExeId GetModuleList vortexPid
                     byPid byName state) pre
         ++ setToolPid P (processID m) excl
            :: flat_map (update_target makeExeId GetModuleList vortexPid
                           byPid byName state) post
    /\ (~ In P (map target_path (pre ++ post)) ->
        actions_for P
          (fst (Tracker.doCheck makeExeId path_join GetModuleList vortexPid
                  (Ok processes) state))
        = [setToolPid P (processID m) excl]).
Proof.
  intros HbyPid HbyName _ Htargets Hknown Hgone Hrunning Hc Hconf.
  destruct (update_restart_started makeExeId GetModuleList vortexPid byPid
              byName state P excl det k running c
              Hknown Hgone Hrunning Hc Hconf)
    as (m & Hfind & Hm & Hmconf & Hupdate).
  assert (Hcheck : fst (Tracker.doCheck makeExeId path_join GetModuleList
                          vortexPid (Ok processes) state)
                   = flat_map (update_target makeExeId GetModuleList vortexPid
                                 byPid byName state) pre
                     ++ setToolPid P (processID m) excl
                        :: flat_map (update_target makeExeId GetModuleList
                                       vortexPid byPid byName state) post).
  { rewrite (doCheck_actions_by_target _ _ _ _ processes byPid byName state
               HbyPid HbyName).
    rewrite Htargets, flat_map_app. cbn [flat_map].
    unfold update_target at 2.
    cbn [target_path target_exclusive target_detached].
    rewrite Hupdate. reflexivity. }
  exists m. split; [exact Hfind|]. split.
  { eapply byName_member; eassumption. }
  split; [exact Hmconf|]. split; [exact Hcheck|].
  intros Hnot. rewrite Hcheck.
  rewrite map_app in Hnot.
  rewrite actions_for_app.
  change (setToolPid P (processID m) excl :: ?l)
    with ([setToolPid P (processID m) excl] ++ l).
  rewrite actions_for_other
    by (intros Hin; apply Hnot, in_or_app; left; exact Hin).
  change (actions_for P
            (setToolPid P (processID m) excl
             :: flat_map (update_target makeExeId GetModuleList vortexPid
                            byPid byName state) post))
    with (actions_for P
            ([setToolPid P (processID m) excl]
             ++ flat_map (update_target makeExeId GetModuleList vortexPid
                            byPid byName state) post)).
  rewrite actions_for_app.
  rewrite (actions_for_other makeExeId GetModuleList vortexPid byPid byName
             state P post)
    by (intros Hin; apply Hnot, in_or_app; right; exact Hin).
  unfold actions_for. cbn [List.filter action_path].
  rewrite String.eqb_refl. reflexivity.
Qed.

Lemma restart_collapses_to_started_witness :
  exists m,
    List.find (Tracker.confirmed modules_example tool_path_example)
      (Tracker.candidates_of (Num 1) tool_byPid false
         [tool_p300; tool_p100; tool_p200]) = Some m
    /\ In (Some m) tool_processes
    /\ Tracker.confirmed modules_example tool_path_example m = true
    /\ actions_for tool_path_example
         (fst (Tracker.doCheck Host.makeExeId_spec Host.path_join_posix
                 modules_example (Num 1) (Ok tool_processes)
                 (state_with_tool known5)))
       = [setToolPid tool_path_example (processID m) false].
Proof.
  destruct (restart_collapses_to_started Host.makeExeId_spec
              Host.path_join_posix modules_example (Num 1)
              tool_processes tool_byPid tool_byName (state_with_tool known5)
              tool_path_example false false
              [mkTarget "/configured/path/game.exe" true true] []
              (mkRunningTool (Num 5) true)
              [tool_p300; tool_p100; tool_p200] tool_p200
              ltac:(vm_compute; reflexivity) ltac:(vm_compute; reflexivity)
              ltac:(vm_compute; reflexivity) ltac:(vm_compute; reflexivity)
              ltac:(vm_compute; reflexivity) ltac:(vm_compute; reflexivity)
              ltac:(vm_compute; reflexivity)
              ltac:(vm_compute; right; right; left; reflexivity)
              ltac:(vm_compute; reflexivity))
    as (m & Hfind & Hm & Hconf & _ & Honly).
  exists m. split; [exact Hfind|]. split; [exact Hm|]. split; [exact Hconf|].
  apply Honly. vm_compute. intros [H|[]]. discriminate H.
Defined.

Example restart_check_example :
  Tracker.doCheck Host.makeExeId_spec Host.path_join_posix modules_example
    (Num 1) (Ok tool_processes) (state_with_tool known5)
  = ([setToolPid tool_path_example (Num 200) false], None).
Proof. vm_compute. reflexivity. Qed.

(** X6.  The actions of a check are those its targets get from [update],
    target by target in order: the game's executable first, then the
    discovered tools that have a path; each target gets at most one
    action, which carries the target's path.  Nothing is dispatched when
    the enumeration throws, when the process list holds a [null], or
    when the game's executable or path is unknown (then there is no
    target).  No target has an exe id inherited from [Object.prototype]. *)
Theorem doCheck_per_target
    (makeExeId : string -> string) (path_join : list string -> string)
    (GetModuleList : number -> list ModuleEntry.t) (vortexPid : number)
    (state : IState) :
  (forall e,
      Tracker.doCheck makeExeId path_join GetModuleList vortexPid
        (Throw e) state = ([], Some e))
  /\ (forall processes,
        In None processes ->
        Tracker.doCheck makeExeId path_join GetModuleList vortexPid
          (Ok processes) state = ([], Some TypeError))
  /\ (Tracker.gameExe state = None \/ Tracker.gamePath state = None ->
      targets path_join state = []
      /\ forall getProcessList,
           fst (Tracker.doCheck makeExeId path_join GetModuleList vortexPid
                  getProcessList state) = [])
  /\ map target_path (targets path_join state) = target_paths path_join state
  /\ (forall procs,
        plain_targets makeExeId (targets path_join state) = true ->
        exists byPid byName,
          Tracker.reduce_byPid (map Some procs) = Ok byPid
          /\ Tracker.reduce_byName (map Some procs) = Ok byName
          /\ fst (Tracker.doCheck makeExeId path_join GetModuleList vortexPid
                    (Ok (map Some procs)) state)
             = flat_map (update_target makeExeId GetModuleList vortexPid
                           byPid byName state) (targets path_join state)
          /\ forall t,
               In t (targets path_join state) ->
               (length (update_target makeExeId GetModuleList vortexPid
                          byPid byName state t) <= 1)%nat
               /\ forall a,
                    In a (update_target makeExeId GetModuleList vortexPid
                            byPid byName state t) ->
                    action_path a = target_path t).
Proof.
  split; [intros e; reflexivity|].
  split; [intros processes Hnull; apply doCheck_null_entry, Hnull|].
  split.
  { intros Hmissing. split.
    - unfold targets. destruct Hmissing as [-> | ->]; [reflexivity|].
      destruct (Tracker.gameExe state); reflexivity.
    - intros getProcessList. apply doCheck_no_game, Hmissing. }
  split; [apply target_paths_targets|].
  intros procs _.
  destruct (reduce_byPid_Ok procs) as [byPid HbyPid].
  destruct (reduce_byName_Ok procs) as [byName HbyName].
  exists byPid, byName.
  split; [exact HbyPid|]. split; [exact HbyName|]. split.
  - apply doCheck_actions_by_target; assumption.
  - intros t _. split.
    + apply update_length.
    + intros a Ha. eapply update_action_path. exact Ha.
Qed.

Lemma doCheck_per_target_witness :
  fst (Tracker.doCheck Host.makeExeId_spec Host.path_join_posix
         modules_example (Num 1) (Ok tool_processes)
         (state_with_tool known5))
  = [setToolPid tool_path_example (Num 200) false]
  /\ fst (Tracker.doCheck Host.makeExeId_spec Host.path_join_posix
            modules_example (Num 1) (Ok tool_processes) state_no_path) = [].
Proof.
  pose proof (doCheck_per_target Host.makeExeId_spec Host.path_join_posix
                modules_example (Num 1) (state_with_tool known5))
    as (_ & _ & _ & _ & Hper).
  pose proof (doCheck_per_target Host.makeExeId_spec Host.path_join_posix
                modules_example (Num 1) state_no_path)
    as (_ & _ & Hnone & _).
  split.
  - destruct (Hper [tool_p300; tool_p100; tool_p200]
                ltac:(vm_compute; reflexivity))
      as (byPid & byName & HbyPid & HbyName & Heq & _).
    change (map Some [tool_p300; tool_p100; tool_p200]) with tool_processes
      in *.
    rewrite Heq.
    assert (byPid = tool_byPid) as ->
      by (vm_compute in HbyPid; injection HbyPid as <-; vm_compute; reflexivity).
    assert (byName = tool_byName) as ->
      by (vm_compute in HbyName; injection HbyName as <-; vm_compute; reflexivity).
    vm_compute. reflexivity.
  - apply (proj2 (Hnone ltac:(right; reflexivity))).
Defined.

(** X12.  When executable and path of the game are known but the store
    has no game ([currentGame] is undefined), a check on a process list
    without [null] entries has the game's executable as its only target
    and ends with a [TypeError] (the access to [game.id]); the discovered
    tools are never looked at. *)
Theorem doCheck_unknown_game_throws
    (makeExeId : string -> string) (path_join : list string -> string)
    (GetModuleList : number -> list ModuleEntry.t) (vortexPid : number)
    (procs : list IProcessInfo) (state : IState) (exe dir : string) :
  Tracker.gameExe state = Some exe ->
  Tracker.gamePath state = Some dir ->
  currentGame state = None ->
  targets path_join state = [mkTarget (path_join [dir; exe]) true true]
  /\ snd (Tracker.doCheck makeExeId path_join GetModuleList vortexPid
            (Ok (map Some procs)) state) = Some TypeError
  /\ (length (fst (Tracker.doCheck makeExeId path_join GetModuleList vortexPid
                     (Ok (map Some procs)) state)) <= 1)%nat
  /\ forall a,
       In a (fst (Tracker.doCheck makeExeId path_join GetModuleList vortexPid
                    (Ok (map Some procs)) state)) ->
       action_path a = path_join [dir; exe].
Proof.
  intros Hexe Hdir Hgame.
  assert (Htargets : targets path_join state
                     = [mkTarget (path_join [dir; exe]) true true]).
  { unfold targets. rewrite Hexe, Hdir, Hgame. reflexivity. }
  destruct (reduce_byPid_Ok procs) as [byPid HbyPid].
  destruct (reduce_byName_Ok procs) as [byName HbyName].
  pose proof (doCheck_actions_by_target makeExeId path_join GetModuleList
                vortexPid (map Some procs) byPid byName state HbyPid HbyName)
    as Hfst.
  rewrite Htargets in Hfst. cbn [flat_map] in Hfst.
  rewrite app_nil_r in Hfst.
  split; [exact Htargets|]. split.
  - unfold Tracker.doCheck. rewrite HbyPid, HbyName, Hexe, Hdir, Hgame.
    reflexivity.
  - rewrite Hfst. split.
    + pose proof (update_length makeExeId GetModuleList vortexPid byPid
                    byName state (path_join [dir; exe]) true true) as Hlen.
      unfold update_target. cbn [target_path target_exclusive target_detached].
      lia.
    + intros a Ha. eapply update_action_path. exact Ha.
Qed.

Lemma doCheck_unknown_game_throws_witness :
  snd (Tracker.doCheck Host.makeExeId_spec Host.path_join_posix
         modules_example (Num 1) (Ok tool_processes) state_unknown_game)
  = Some TypeError.
Proof.
  apply (doCheck_unknown_game_throws Host.makeExeId_spec Host.path_join_posix
           modules_example (Num 1) [tool_p300; tool_p100; tool_p200]
           state_unknown_game "tool.exe" "/configured/path");
    reflexivity.
Defined.
